(** * Divvy bike share: cleaning and aggregation pipeline

    A shallow embedding of the two scripts of the repository,
    [divvy_bike_share_analysis.py] (cleaning, caching, KPIs, chart data) and
    [divvy_bike_export_excel.py] (the same aggregates written to a workbook),
    and the properties of the cleaned dataset and of the aggregates.

    Conventions of the embedding.
    - A pandas data frame is a list of rows, in row order.
    - A timestamp ([datetime64[ns]]) is the integer number of nanoseconds
      since 1970-01-01 00:00:00; a [Timedelta] is a difference of two.
    - Python floats are exact rationals ([Q]); the only non-finite value
      the scripts can produce on these paths, the [nan] of an empty mean,
      is explicit ([pyfloat]).  Rounding is not modelled.
    - A Python exception is a value of [exn]; code that may raise returns
      a [result].
    - Of the derived columns and sheets only those the properties below
      speak about are carried; charts and workbook output are left out. *)

From Stdlib Require Import String.
From Stdlib Require Import List ZArith QArith Bool Lia Permutation Sorted.
Import ListNotations.

Local Open Scope string_scope.

(** ** Python values and exceptions *)

Inductive exn : Type :=
| ZeroDivisionError
| IndexError
| ValueError.

Inductive result (A : Type) : Type :=
| Ok (a : A)
| Raise (e : exn).

Arguments Ok {A} a.
Arguments Raise {A} e.

Definition bind {A B : Type} (m : result A) (k : A -> result B) : result B :=
  match m with
  | Ok a => k a
  | Raise e => Raise e
  end.

Notation "x <- m ;; k" := (bind m (fun x => k))
  (at level 61, m at next level, right associativity).

(** A float that is either finite or [nan]. *)
Inductive pyfloat : Type :=
| Fin (q : Q)
| NaN.

(** Equality of two floats as numbers; [nan] equals nothing. *)
Definition feq (a b : pyfloat) : Prop :=
  match a, b with
  | Fin x, Fin y => (x == y)%Q
  | _, _ => False
  end.

Definition Qnat (n : nat) : Q := inject_Z (Z.of_nat n).

(** Python's [a / b] on numbers: true division, raising on a zero divisor
    (for [int / int] and for [int / float] alike). *)
Definition truediv (a b : Q) : result Q :=
  if Qeq_bool b 0 then Raise ZeroDivisionError else Ok (a / b)%Q.

Definition Qsum (l : list Q) : Q := fold_right Qplus 0%Q l.

(** [Series.mean()]: [nan] on an empty series, no exception. *)
Definition series_mean (l : list Q) : pyfloat :=
  match l with
  | [] => NaN
  | _ :: _ => Fin (Qsum l / Qnat (length l))%Q
  end.

(** ** Timestamps *)

Definition ns_per_second : Z := 1000000000.
Definition ns_per_hour : Z := 3600 * ns_per_second.
Definition ns_per_day : Z := 24 * ns_per_hour.

(** [total_seconds()] of a time difference, exact to the nanosecond as
    [.dt.total_seconds()] has it on a column.  On a scalar [Timedelta],
    pandas 2 leaves what is below a microsecond out: the length of the
    analysis period is stated for spans of whole microseconds, and
    otherwise only bounded in ways that hold for either reading. *)
Definition total_seconds (td : Z) : Q := (td # 1000000000)%Q.

(** [Timedelta.days]: whole days, rounded towards minus infinity. *)
Definition days (td : Z) : Z := (td / ns_per_day)%Z.

(** [Series.dt.hour]. *)
Definition hour (t : Z) : Z := ((t / ns_per_hour) mod 24)%Z.

(** [Series.dt.day_name()]; 1970-01-01 was a Thursday. *)
Definition day_name (t : Z) : string :=
  match ((t / ns_per_day + 3) mod 7)%Z with
  | 0%Z => "Monday"
  | 1%Z => "Tuesday"
  | 2%Z => "Wednesday"
  | 3%Z => "Thursday"
  | 4%Z => "Friday"
  | 5%Z => "Saturday"
  | _ => "Sunday"
  end.

(** A readable way to write a timestamp: day number since the epoch, hour,
    minute, second. *)
Definition at_ (d h m s : Z) : Z :=
  ((((d * 24 + h) * 60 + m) * 60 + s) * ns_per_second)%Z.

(** ** Group keys

    What pandas needs of a column it groups by or counts: equality (hashing)
    and an order (group keys come out sorted). *)

Class Key (K : Type) : Type := {
  keqb : K -> K -> bool;
  kleb : K -> K -> bool;
  keqb_eq : forall x y, keqb x y = true <-> x = y
}.

#[export] Instance Key_string : Key string := {
  keqb := String.eqb;
  kleb := String.leb;
  keqb_eq := String.eqb_eq
}.

#[export] Instance Key_Z : Key Z := {
  keqb := Z.eqb;
  kleb := Z.leb;
  keqb_eq := Z.eqb_eq
}.

Section Frames.
Context {K : Type} `{Key K}.

(** Number of cells of a column equal to [k]. *)
Definition count (k : K) (col : list K) : nat :=
  length (filter (keqb k) col).

Fixpoint remove_key (k : K) (l : list K) : list K :=
  match l with
  | [] => []
  | x :: r => if keqb k x then remove_key k r else x :: remove_key k r
  end.

(** [Series.unique()]: the distinct values, in order of first appearance. *)
Fixpoint unique (col : list K) : list K :=
  match col with
  | [] => []
  | x :: r => x :: remove_key x (unique r)
  end.

(** [Series.nunique()]. *)
Definition nunique (col : list K) : nat := length (unique col).
End Frames.

Section Sorting.
Context {A : Type} (le : A -> A -> bool).

Fixpoint insert_sorted (x : A) (l : list A) : list A :=
  match l with
  | [] => [x]
  | y :: r => if le x y then x :: y :: r else y :: insert_sorted x r
  end.

(** A stable sort: pandas leaves the order of ties unspecified, the model
    keeps them in their original order. *)
Definition sort_by (l : list A) : list A := fold_right insert_sorted [] l.
End Sorting.

Section Grouping.
Context {K : Type} `{Key K}.

(** [groupby(col).size()]: one row per observed key, keys ascending. *)
Definition groupby_size (col : list K) : list (K * nat) :=
  map (fun k => (k, count k col)) (sort_by kleb (unique col)).

(** [Series.value_counts()]: one row per observed value, most frequent
    first. *)
Definition value_counts (col : list K) : list (K * nat) :=
  sort_by (fun a b => Nat.leb (snd b) (snd a))
          (map (fun k => (k, count k col)) (unique col)).
End Grouping.

(** [Series.head(n)]. *)
Definition head {A : Type} (n : nat) (l : list A) : list A := firstn n l.

(** ** Raw trip records (Record Loader output) *)

(** The text of a timestamp cell, as [pd.to_datetime] takes it in the column
    it stands in: it denotes an instant, or the conversion raises on it.
    pandas reads a whole column in the format of its first cell, so a text
    that is readable on its own is [Malformed] in a column that starts in
    another format. *)
Inductive datetime_text : Type :=
| Malformed
| Denotes (t : Z).

(** One row of a raw CSV file as [pd.read_csv] delivers it: a missing or
    empty cell is [None]. *)
Record raw_record : Type := {
  raw_ride_id : option string;
  raw_started_at : option datetime_text;
  raw_ended_at : option datetime_text;
  raw_start_station_name : option string;
  raw_end_station_name : option string;
  raw_member_casual : option string
}.

(** A source file: [pd.read_csv] raises on it, or it yields a table. *)
Inductive raw_file : Type :=
| Unreadable
| Table (rows : list raw_record).

(** ** Cleaned trip records (Record Cleaner output) *)

Record trip : Type := {
  ride_id : string;
  started_at : Z;
  ended_at : Z;
  start_station_name : string;
  end_station_name : string;
  member_casual : option string;
  trip_duration_minutes : Q;
  membership_indicator : Z
}.

Definition notna {A : Type} (c : option A) : bool :=
  match c with
  | Some _ => true
  | None => false
  end.

(** [dropna(subset=['ride_id', 'started_at', 'ended_at'])]. *)
Definition dropna (rows : list raw_record) : list raw_record :=
  filter (fun r => notna (raw_ride_id r) && notna (raw_started_at r)
                   && notna (raw_ended_at r)) rows.

(** A row once both timestamp columns have been converted. *)
Record stamped : Type := {
  st_raw : raw_record;
  st_ride_id : string;
  st_started_at : Z;
  st_ended_at : Z
}.

(** The two [pd.to_datetime] conversions: one malformed cell in either
    column raises and the file is lost.  Rows with a missing key no longer
    occur here, [dropna] ran before.  The cells are those of one file, each
    read in its column; no statement below carries a cell over to a column
    with other rows that have their keys. *)
Fixpoint to_datetime (rows : list raw_record) : option (list stamped) :=
  match rows with
  | [] => Some []
  | r :: rest =>
      match raw_ride_id r, raw_started_at r, raw_ended_at r with
      | Some id, Some (Denotes s), Some (Denotes e) =>
          option_map
            (cons {| st_raw := r; st_ride_id := id;
                     st_started_at := s; st_ended_at := e |})
            (to_datetime rest)
      | _, _, _ => None
      end
  end.

(** [(ended_at - started_at).dt.total_seconds() / 60]. *)
Definition duration_minutes (s e : Z) : Q := (total_seconds (e - s) / 60)%Q.

Definition Qltb (a b : Q) : bool := negb (Qle_bool b a).

(** [fillna("Unknown")] followed by [replace('', "Unknown")]. *)
Definition standardize_station (name : option string) : string :=
  match name with
  | None => "Unknown"
  | Some s => if String.eqb s "" then "Unknown" else s
  end.

(** [(member_casual == 'member').astype(int)]; a missing category compares
    unequal. *)
Definition membership_of (category : option string) : Z :=
  match category with
  | Some c => if String.eqb c "member" then 1%Z else 0%Z
  | None => 0%Z
  end.

Definition finish_row (r : stamped) : trip :=
  {| ride_id := st_ride_id r;
     started_at := st_started_at r;
     ended_at := st_ended_at r;
     start_station_name := standardize_station (raw_start_station_name (st_raw r));
     end_station_name := standardize_station (raw_end_station_name (st_raw r));
     member_casual := raw_member_casual (st_raw r);
     trip_duration_minutes := duration_minutes (st_started_at r) (st_ended_at r);
     membership_indicator := membership_of (raw_member_casual (st_raw r)) |}.

Definition st_duration (r : stamped) : Q :=
  duration_minutes (st_started_at r) (st_ended_at r).

(** The body of the [try] block for one file: [None] when an exception
    reaches the handler, else the cleaned table [temp_dataframe]. *)
Definition temp_dataframe (f : raw_file) : option (list trip) :=
  match f with
  | Unreadable => None
  | Table rows =>
      match to_datetime (dropna rows) with
      | None => None
      | Some stamped_rows =>
          let positive := filter (fun r => Qltb 0 (st_duration r)) stamped_rows in
          let bounded :=
            filter (fun r => Qle_bool (st_duration r) (inject_Z (24 * 60))) positive in
          Some (map finish_row bounded)
      end
  end.

(** ** Columns shared by both scripts *)

(** [Series.min()] and [Series.max()] of a timestamp column; [None] is the
    [NaT] of an empty column. *)
Definition series_min (col : list Z) : option Z :=
  match col with
  | [] => None
  | t :: rest => Some (fold_left Z.min rest t)
  end.

Definition series_max (col : list Z) : option Z :=
  match col with
  | [] => None
  | t :: rest => Some (fold_left Z.max rest t)
  end.

(** [df['started_at'].dt.hour] and [df['started_at'].dt.day_name()]. *)
Definition start_hour (t : trip) : Z := hour (started_at t).
Definition day_of_week (t : trip) : string := day_name (started_at t).

Definition is_real (name : string) : bool := negb (String.eqb name "Unknown").

(** [(d >= 5) & (d <= 60)] on [trip_duration_minutes]. *)
Definition optimal_duration (t : trip) : bool :=
  Qle_bool 5 (trip_duration_minutes t) && Qle_bool (trip_duration_minutes t) 60.

(** One row of a [groupby(key).agg({'ride_id': 'count',
    'membership_indicator': 'mean', 'trip_duration_minutes': 'mean'})]. *)
Record group_row (K : Type) : Type := {
  g_key : K;
  g_total_trips : nat;
  g_membership_indicator : pyfloat;
  g_trip_duration_minutes : pyfloat
}.

Arguments g_key {K} _.
Arguments g_total_trips {K} _.
Arguments g_membership_indicator {K} _.
Arguments g_trip_duration_minutes {K} _.

Section GroupAgg.
Context {K : Type} `{Key K}.

Definition group_of (key : trip -> K) (k : K) (df : list trip) : list trip :=
  filter (fun t => keqb k (key t)) df.

(** ['count'] counts the non-null cells of [ride_id]; the column has none
    that is null, so it is the size of the group. *)
Definition groupby_agg (key : trip -> K) (df : list trip) : list (group_row K) :=
  map (fun k =>
         let g := group_of key k df in
         {| g_key := k;
            g_total_trips := length g;
            g_membership_indicator :=
              series_mean (map (fun t => inject_Z (membership_indicator t)) g);
            g_trip_duration_minutes :=
              series_mean (map trip_duration_minutes g) |})
      (sort_by kleb (unique (map key df))).
End GroupAgg.

Definition day_order : list string :=
  ["Monday"; "Tuesday"; "Wednesday"; "Thursday"; "Friday"; "Saturday"; "Sunday"].

(** The code of a label in [pd.Categorical(..., categories)]: its position,
    [None] ([nan]) for a label that is no category. *)
Fixpoint category_code (categories : list string) (label : string) : option nat :=
  match categories with
  | [] => None
  | c :: rest =>
      if String.eqb c label then Some O
      else option_map S (category_code rest label)
  end.

(** Order of [sort_values] on an ordered categorical: by code, [nan] last. *)
Definition code_leb (a b : option nat) : bool :=
  match a, b with
  | Some x, Some y => Nat.leb x y
  | Some _, None => true
  | None, Some _ => false
  | None, None => true
  end.

(** [.iloc[0]]. *)
Definition iloc0 {A : Type} (l : list A) : result A :=
  match l with
  | [] => Raise IndexError
  | x :: _ => Ok x
  end.

(** ** Further tables of the two scripts *)

(** Group keys of a two-column [groupby]: compared component by component,
    ordered by the first column and then by the second. *)
#[export] Instance Key_pair {A B : Type} `{Key A} `{Key B} : Key (A * B).
Proof.
  refine {| keqb := fun x y => keqb (fst x) (fst y) && keqb (snd x) (snd y);
            kleb := fun x y => if keqb (fst x) (fst y) then kleb (snd x) (snd y)
                               else kleb (fst x) (fst y) |}.
  intros [a b] [a' b']. simpl. rewrite andb_true_iff, !keqb_eq.
  split; [intros [-> ->]; reflexivity | intros [= -> ->]; split; reflexivity].
Defined.

(** [str.endswith]. *)
Definition endswith (s suffix : string) : bool :=
  let n := String.length s in
  let m := String.length suffix in
  Nat.leb m n && String.eqb (substring (n - m) m s) suffix.

(** One row of the station-type tables. *)
Record station_type_row : Type := {
  type_label : string;
  type_count : Z;
  type_percentage : Q
}.

(** [data.pivot(index='start_hour', columns='day_of_week', values=...)]
    followed by [reindex(columns=labels)]: [pivot] raises [ValueError] when
    an (index, column) pair occurs twice; otherwise there is one row per
    index value, ascending, with one cell per label, empty ([nan]) where the
    data have no entry. *)
Definition pivot_reindex (data : list ((Z * string) * nat)) (labels : list string)
  : result (list (Z * list (option nat))) :=
  if Nat.eqb (nunique (map fst data)) (length data)
  then Ok (map (fun h =>
                  (h, map (fun d => option_map snd
                                      (find (fun row => keqb (fst row) (h, d)) data))
                          labels))
               (sort_by Z.leb (unique (map (fun row => fst (fst row)) data))))
  else Raise ValueError.

(** The non-null cells of [member_casual]: [groupby] leaves rows with a
    missing key out. *)
Definition categories (df : list trip) : list string :=
  flat_map (fun t => match member_casual t with
                     | Some c => [c]
                     | None => []
                     end) df.

(** ** The analysis script *)

Module Analysis.

(** The loop over the raw files, in sorted path order: a file whose
    processing raises is reported and skipped. *)
Fixpoint processed_dataframes (files : list raw_file) : list (list trip) :=
  match files with
  | [] => []
  | f :: rest =>
      match temp_dataframe f with
      | Some df => df :: processed_dataframes rest
      | None => processed_dataframes rest
      end
  end.

Inductive loaded : Type :=
| Dataset (df : list trip)
| SystemExit (code : Z).

(** Cache first: [cache] is the content of the processed file when it
    exists.  Otherwise the cleaned tables are concatenated, and the script
    leaves with [exit(1)] when there is none. *)
Definition divvy_dataset (cache : option (list trip)) (files : list raw_file) : loaded :=
  match cache with
  | None =>
      match processed_dataframes files with
      | [] => SystemExit 1
      | dfs => Dataset (concat dfs)
      end
  | Some df => Dataset df
  end.

(** The membership column of a cached dataset that lacks it. *)
Definition ensure_membership_indicator (t : trip) : Z :=
  membership_of (member_casual t).

Definition total_trips (df : list trip) : nat := length df.

(** [(max - min).total_seconds() / (24 * 3600)]. *)
Definition analysis_period_days (lo hi : Z) : Q :=
  (total_seconds (hi - lo) / inject_Z (24 * 3600))%Q.

(** [total_trips / analysis_period_days], the period being that between
    the first and the last start time.  An empty dataset does not come this
    far (see [key_performance_indicators]). *)
Definition daily_trip_efficiency (df : list trip) : result Q :=
  match series_min (map started_at df), series_max (map started_at df) with
  | Some lo, Some hi => truediv (Qnat (total_trips df)) (analysis_period_days lo hi)
  | _, _ => Raise ValueError
  end.

Definition station_utilization_data (df : list trip) : list (string * nat) :=
  groupby_size
    (map start_station_name (filter (fun t => is_real (start_station_name t)) df)).

Definition average_station_efficiency (df : list trip) : pyfloat :=
  series_mean (map (fun row => Qnat (snd row)) (station_utilization_data df)).

Definition total_active_stations (df : list trip) : nat :=
  length (station_utilization_data df).

Definition optimal_duration_trips (df : list trip) : nat :=
  length (filter optimal_duration df).

(** [optimal_duration_trips / total_trips * 100]. *)
Definition user_satisfaction_rate (df : list trip) : result Q :=
  r <- truediv (Qnat (optimal_duration_trips df)) (Qnat (total_trips df)) ;;
  Ok (r * 100)%Q.

Record kpis : Type := {
  k_total_trips : nat;
  k_member_user_percentage : pyfloat;
  k_average_trip_duration : pyfloat;
  k_total_usage_hours : Q;
  k_analysis_period_days : Q;
  k_daily_trip_efficiency : Q;
  k_average_station_efficiency : pyfloat;
  k_total_active_stations : nat;
  k_user_satisfaction_rate : Q
}.

Definition percent (f : pyfloat) : pyfloat :=
  match f with
  | Fin q => Fin (q * 100)%Q
  | NaN => NaN
  end.

(** The sections "dataset summary statistics" and "key performance
    indicators", statement by statement.  The summary formats the first and
    last start time with [strftime], which raises on the [NaT] of an empty
    dataset. *)
Definition key_performance_indicators (df : list trip) : result kpis :=
  match series_min (map started_at df), series_max (map started_at df) with
  | Some lo, Some hi =>
      let period := analysis_period_days lo hi in
      daily <- daily_trip_efficiency df ;;
      rate <- user_satisfaction_rate df ;;
      Ok {| k_total_trips := total_trips df;
            k_member_user_percentage :=
              percent (series_mean (map (fun t => inject_Z (membership_indicator t)) df));
            k_average_trip_duration := series_mean (map trip_duration_minutes df);
            k_total_usage_hours := (Qsum (map trip_duration_minutes df) / 60)%Q;
            k_analysis_period_days := period;
            k_daily_trip_efficiency := daily;
            k_average_station_efficiency := average_station_efficiency df;
            k_total_active_stations := total_active_stations df;
            k_user_satisfaction_rate := rate |}
  | _, _ => Raise ValueError
  end.

(** How the script fares up to the end of the KPI section: it has left
    through [exit], an exception went uncaught, or it goes on to draw the
    charts with these KPIs. *)
Inductive outcome : Type :=
| Exited (code : Z)
| Uncaught (e : exn)
| Charts (k : kpis).

Definition run (cache : option (list trip)) (files : list raw_file) : outcome :=
  match divvy_dataset cache files with
  | SystemExit code => Exited code
  | Dataset df =>
      match key_performance_indicators df with
      | Ok k => Charts k
      | Raise e => Uncaught e
      end
  end.

(** The exit status of the process when the run has ended by then: the
    argument of [exit], or 1 for an uncaught exception. *)
Definition exit_status (o : outcome) : option Z :=
  match o with
  | Exited code => Some code
  | Uncaught _ => Some 1%Z
  | Charts _ => None
  end.

(** Top 10 start and end stations among the real ones. *)
Definition real_stations_start (df : list trip) : list (string * nat) :=
  head 10 (value_counts
             (map start_station_name (filter (fun t => is_real (start_station_name t)) df))).

Definition real_stations_end (df : list trip) : list (string * nat) :=
  head 10 (value_counts
             (map end_station_name (filter (fun t => is_real (end_station_name t)) df))).

(** The discovery of the raw files from the listing of [data/raw]: the
    names ending in [.csv], joined to the directory, then sorted. *)
Definition raw_file_paths (listing : list string) : list string :=
  sort_by String.leb
          (map (fun file => "data/raw/" ++ file)
               (filter (fun file => endswith file ".csv") listing)).

(** Section 6, "station type distribution". *)
Definition total_stations (df : list trip) : nat :=
  nunique (map start_station_name df).

Definition real_stations_count (df : list trip) : nat :=
  nunique (map start_station_name (filter (fun t => is_real (start_station_name t)) df)).

Definition station_types_data (df : list trip) : result (list station_type_row) :=
  let unknown := (Z.of_nat (total_stations df) - Z.of_nat (real_stations_count df))%Z in
  r <- truediv (inject_Z unknown) (Qnat (total_stations df)) ;;
  let unknown_percentage := (r * 100)%Q in
  Ok [ {| type_label := "Real Stations";
          type_count := Z.of_nat (real_stations_count df);
          type_percentage := (100 - unknown_percentage)%Q |};
       {| type_label := "Unknown Stations";
          type_count := unknown;
          type_percentage := unknown_percentage |} ].

End Analysis.

(** ** The export script *)

Module Excel.

Definition total_trips (df : list trip) : nat := length df.

Definition has_category (c : string) (t : trip) : bool :=
  match member_casual t with
  | Some c' => String.eqb c' c
  | None => false
  end.

Definition member_trips (df : list trip) : nat :=
  length (filter (has_category "member") df).

Definition casual_trips (df : list trip) : nat :=
  length (filter (has_category "casual") df).

(** [(member_trips / total_trips) * 100]. *)
Definition member_percentage (df : list trip) : result Q :=
  r <- truediv (Qnat (member_trips df)) (Qnat (total_trips df)) ;;
  Ok (r * 100)%Q.

(** [(max - min).days] of the start times. *)
Definition date_range (df : list trip) : option Z :=
  match series_min (map started_at df), series_max (map started_at df) with
  | Some lo, Some hi => Some (days (hi - lo))
  | _, _ => None
  end.

(** [total_trips / date_range].  An empty dataset does not come this far,
    [member_percentage] has raised before. *)
Definition daily_efficiency (df : list trip) : result Q :=
  match date_range df with
  | Some d => truediv (Qnat (total_trips df)) (inject_Z d)
  | None => Raise ValueError
  end.

Definition real_stations (df : list trip) : nat :=
  nunique (map start_station_name (filter (fun t => is_real (start_station_name t)) df)).

Definition real_end_stations (df : list trip) : nat :=
  nunique (map end_station_name (filter (fun t => is_real (end_station_name t)) df)).

(** [total_trips / real_stations]. *)
Definition station_efficiency (df : list trip) : result Q :=
  truediv (Qnat (total_trips df)) (Qnat (real_stations df)).

Definition optimal_trips (df : list trip) : nat :=
  length (filter optimal_duration df).

(** [(optimal_trips / total_trips) * 100]. *)
Definition satisfaction_rate (df : list trip) : result Q :=
  r <- truediv (Qnat (optimal_trips df)) (Qnat (total_trips df)) ;;
  Ok (r * 100)%Q.

Record kpis : Type := {
  k_total_trips : nat;
  k_member_percentage : Q;
  k_avg_duration : pyfloat;
  k_total_hours : Q;
  k_daily_efficiency : Q;
  k_station_efficiency : Q;
  k_satisfaction_rate : Q
}.

(** Section 1 of the script, "KPI dashboard data", statement by
    statement. *)
Definition kpi_data (df : list trip) : result kpis :=
  member <- member_percentage df ;;
  daily <- daily_efficiency df ;;
  station <- station_efficiency df ;;
  satisfaction <- satisfaction_rate df ;;
  Ok {| k_total_trips := total_trips df;
        k_member_percentage := member;
        k_avg_duration := series_mean (map trip_duration_minutes df);
        k_total_hours := (Qsum (map trip_duration_minutes df) / 60)%Q;
        k_daily_efficiency := daily;
        k_station_efficiency := station;
        k_satisfaction_rate := satisfaction |}.

(** Section 2, "hourly analysis data". *)
Definition hourly_data (df : list trip) : list (group_row Z) :=
  groupby_agg start_hour df.

(** Section 3, "daily analysis data": grouped by day name, then put in the
    order of [day_order]. *)
Definition daily_data (df : list trip) : list (group_row string) :=
  sort_by (fun a b => code_leb (category_code day_order (g_key a))
                               (category_code day_order (g_key b)))
          (groupby_agg day_of_week df).

Record station_row : Type := {
  station_name : string;
  station_total_trips : nat;
  percentage : Q
}.

(** [value_counts().head(20)] with the added [percentage] column,
    [(total_trips / total_trips of the dataset) * 100]. *)
Definition top_stations (total : nat) (col : list string) : list station_row :=
  map (fun row =>
         {| station_name := fst row;
            station_total_trips := snd row;
            percentage := (Qnat (snd row) / Qnat total * 100)%Q |})
      (head 20 (value_counts col)).

(** Sections 8 and 9, "top start stations" and "top end stations". *)
Definition start_stations (df : list trip) : list station_row :=
  top_stations (total_trips df) (map start_station_name df).

Definition end_stations (df : list trip) : list station_row :=
  top_stations (total_trips df) (map end_station_name df).

(** Section 13: [hourly_data[hourly_data['start_hour'] == h]['total_trips'].iloc[0]],
    used for the hours 8 and 18. *)
Definition peak_hour_trips (df : list trip) (h : Z) : result nat :=
  iloc0 (map g_total_trips (filter (fun row => Z.eqb (g_key row) h) (hourly_data df))).

Definition isin (labels : list string) (label : string) : bool :=
  existsb (String.eqb label) labels.

(** Section 13: the mean of [total_trips] over the rows of [daily_data]
    whose day is among [labels]. *)
Definition average_trips_on (labels : list string) (df : list trip) : pyfloat :=
  series_mean
    (map (fun row => Qnat (g_total_trips row))
         (filter (fun row => isin labels (g_key row)) (daily_data df))).

Definition weekday_average_trips : list trip -> pyfloat :=
  average_trips_on ["Monday"; "Tuesday"; "Wednesday"; "Thursday"; "Friday"].

Definition weekend_average_trips : list trip -> pyfloat :=
  average_trips_on ["Saturday"; "Sunday"].

(** Section 5, "user analysis data": the rows of the grouping by category
    with their trip count and share of the grouped trips (the duration
    columns are left out). *)
Record user_row : Type := {
  user_category : string;
  user_total_trips : nat;
  user_percentage : Q
}.

Definition user_analysis (df : list trip) : list user_row :=
  let groups := groupby_size (categories df) in
  let grouped := list_sum (map snd groups) in
  map (fun row =>
         {| user_category := fst row;
            user_total_trips := snd row;
            user_percentage := (Qnat (snd row) / Qnat grouped * 100)%Q |})
      groups.

(** Section 10, "station types data". *)
Definition total_start_stations (df : list trip) : nat :=
  nunique (map start_station_name df).

Definition real_start_stations (df : list trip) : nat :=
  nunique (map start_station_name (filter (fun t => is_real (start_station_name t)) df)).

Definition station_types_data (df : list trip) : result (list station_type_row) :=
  let unknown :=
    (Z.of_nat (total_start_stations df) - Z.of_nat (real_start_stations df))%Z in
  real <- truediv (Qnat (real_start_stations df)) (Qnat (total_start_stations df)) ;;
  unknown_share <- truediv (inject_Z unknown) (Qnat (total_start_stations df)) ;;
  Ok [ {| type_label := "Real Stations";
          type_count := Z.of_nat (real_start_stations df);
          type_percentage := (real * 100)%Q |};
       {| type_label := "Unknown Stations";
          type_count := unknown;
          type_percentage := (unknown_share * 100)%Q |} ].

(** Section 11, "temporal heatmap data". *)
Definition heatmap_data (df : list trip) : list ((Z * string) * nat) :=
  groupby_size (map (fun t => (start_hour t, day_of_week t)) df).

Definition heatmap_pivot (df : list trip) : result (list (Z * list (option nat))) :=
  pivot_reindex (heatmap_data df) day_order.

(** Section 12, "duration distribution data".  Of [pd.cut(..., bins=50)]
    only what it raises is carried: [ValueError] on an empty column. *)
Definition reasonable_rides (df : list trip) : list trip :=
  filter (fun t => Qle_bool (trip_duration_minutes t) 120) df.

Definition duration_bins (df : list trip) : result unit :=
  match reasonable_rides df with
  | [] => Raise ValueError
  | _ :: _ => Ok tt
  end.

(** Section 13, "summary statistics": the cells of [Value_Numeric] that can
    raise or be [nan], in the order in which the list is evaluated. *)
Record summary : Type := {
  s_trips_per_end_station : Q;
  s_peak_8 : nat;
  s_peak_18 : nat;
  s_weekday_average : pyfloat;
  s_weekend_average : pyfloat
}.

Definition summary_stats (df : list trip) : result summary :=
  per_end <- truediv (Qnat (total_trips df)) (Qnat (real_end_stations df)) ;;
  peak_8 <- peak_hour_trips df 8 ;;
  peak_18 <- peak_hour_trips df 18 ;;
  Ok {| s_trips_per_end_station := per_end;
        s_peak_8 := peak_8;
        s_peak_18 := peak_18;
        s_weekday_average := weekday_average_trips df;
        s_weekend_average := weekend_average_trips df |}.

(** The body of the [with pd.ExcelWriter(...) as writer] block: how its
    statements end, and the number of sheets written by then.  The KPI
    section comes before the first sheet; nine sheets are written before the
    station types, and one more after each section from there on. *)
Definition workbook (df : list trip) : result summary * nat :=
  match kpi_data df with
  | Raise e => (Raise e, 0%nat)
  | Ok _ =>
      match station_types_data df with
      | Raise e => (Raise e, 9%nat)
      | Ok _ =>
          match heatmap_pivot df with
          | Raise e => (Raise e, 10%nat)
          | Ok _ =>
              match duration_bins df with
              | Raise e => (Raise e, 11%nat)
              | Ok _ =>
                  match summary_stats df with
                  | Raise e => (Raise e, 12%nat)
                  | Ok s => (Ok s, 13%nat)
                  end
              end
          end
      end
  end.

(** Leaving the [with] block closes the workbook, also when the body has
    raised.  Closing a workbook that has no sheet raises [IndexError], and
    that error then takes the place of the one raised in the body;
    otherwise the workbook is saved and the body's exception goes on to the
    caller. *)
Definition export_script (df : list trip) : result summary :=
  match workbook df with
  | (_, O) => Raise IndexError
  | (outcome, S _) => outcome
  end.

End Excel.

(** ** Sample data *)

Definition raw (id : string) (s e : Z) (from to : option string)
    (category : string) : raw_record :=
  {| raw_ride_id := Some id;
     raw_started_at := Some (Denotes s);
     raw_ended_at := Some (Denotes e);
     raw_start_station_name := from;
     raw_end_station_name := to;
     raw_member_casual := Some category |}.

(** ** Vocabulary of the statements *)

(** The canonical dataset: what the analysis script combines from the raw
    files when no processed file exists yet (and then writes to it). *)
Definition canonical (df : list trip) : Prop :=
  exists files, Analysis.divvy_dataset None files = Analysis.Dataset df.

(** The duration of a raw record whose two timestamps can be read. *)
Definition raw_duration (r : raw_record) : option Q :=
  match raw_started_at r, raw_ended_at r with
  | Some (Denotes s), Some (Denotes e) => Some (duration_minutes s e)
  | _, _ => None
  end.

(** The record-at-a-time admission rule: identifier and both timestamps
    present, duration above 0 and at most 1440 minutes. *)
Definition admissible (r : raw_record) : bool :=
  notna (raw_ride_id r) &&
  match raw_duration r with
  | Some d => Qltb 0 d && Qle_bool d 1440
  | None => false
  end.

Definition raw_key (r : raw_record)
  : option string * option datetime_text * option datetime_text :=
  (raw_ride_id r, raw_started_at r, raw_ended_at r).

Definition trip_key (t : trip)
  : option string * option datetime_text * option datetime_text :=
  (Some (ride_id t), Some (Denotes (started_at t)), Some (Denotes (ended_at t))).

(** [t] is the cleaned form of the raw record [r]. *)
Definition cleaned_from (r : raw_record) (t : trip) : Prop :=
  raw_key r = trip_key t /\
  start_station_name t = standardize_station (raw_start_station_name r) /\
  end_station_name t = standardize_station (raw_end_station_name r) /\
  member_casual t = raw_member_casual r /\
  trip_duration_minutes t = duration_minutes (started_at t) (ended_at t) /\
  membership_indicator t = membership_of (raw_member_casual r).

Definition consistent (s : stamped) : Prop :=
  raw_key (st_raw s)
  = (Some (st_ride_id s), Some (Denotes (st_started_at s)), Some (Denotes (st_ended_at s))).

(** Time between the first and the last start, in nanoseconds. *)
Definition started_span (df : list trip) : Z :=
  match series_min (map started_at df), series_max (map started_at df) with
  | Some lo, Some hi => (hi - lo)%Z
  | _, _ => 0%Z
  end.

(** A trip of 10 minutes. *)
Definition sample_short : raw_record :=
  raw "r1" (at_ 19000 8 0 0) (at_ 19000 8 10 0) (Some "Clark St") (Some "Lake Shore") "member".

(** A trip of 70 minutes without station names. *)
Definition sample_long : raw_record :=
  raw "r2" (at_ 19002 18 0 0) (at_ 19002 19 10 0) None (Some "") "casual".

(** A trip of 1500 minutes. *)
Definition sample_overlong : raw_record :=
  raw "r3" (at_ 19003 8 0 0) (at_ 19004 9 0 0) (Some "Clark St") None "casual".

Definition sample_rows : list raw_record :=
  [sample_short; sample_long; sample_overlong].

(** The canonical dataset of the one file [sample_rows]. *)
Definition sample_dataset : list trip :=
  concat (Analysis.processed_dataframes [Table sample_rows]).

(** A raw file whose only record carries a category of an older schema. *)
Definition subscriber_rows : list raw_record :=
  [ raw "s1" (at_ 19000 8 0 0) (at_ 19000 8 30 0) (Some "Clark St") (Some "Lake Shore")
        "Subscriber" ].

(** Two trips whose starts are a day and a half apart. *)
Definition day_and_a_half_rows : list raw_record :=
  [ raw "d1" (at_ 19000 8 0 0) (at_ 19000 8 10 0) (Some "Clark St") (Some "Lake Shore") "member";
    raw "d2" (at_ 19001 20 0 0) (at_ 19001 20 30 0) (Some "Lake Shore") (Some "Clark St") "casual" ].

Definition day_and_a_half_dataset : list trip :=
  concat (Analysis.processed_dataframes [Table day_and_a_half_rows]).

(** Two trips, on a Monday and on the Wednesday after, that start at no
    known station. *)
Definition dockless_rows : list raw_record :=
  [ raw "u1" (at_ 19002 8 0 0) (at_ 19002 8 20 0) None None "casual";
    raw "u2" (at_ 19004 9 0 0) (at_ 19004 9 15 0) (Some "") (Some "Clark St") "member" ].

Definition dockless_dataset : list trip :=
  concat (Analysis.processed_dataframes [Table dockless_rows]).

(** A dataset of one trip. *)
Definition single_trip_dataset : list trip :=
  concat (Analysis.processed_dataframes [Table [sample_short]]).

(** The cleaned form of [sample_long]. *)
Definition sample_long_trip : trip :=
  finish_row {| st_raw := sample_long; st_ride_id := "r2";
                st_started_at := at_ 19002 18 0 0;
                st_ended_at := at_ 19002 19 10 0 |}.

(** The number of records a raw file contributes to the combined dataset:
    its rows that pass the admission rule, none when its processing
    raises. *)
Definition admitted_count (f : raw_file) : nat :=
  match f, temp_dataframe f with
  | Table rows, Some _ => length (filter admissible rows)
  | _, _ => O
  end.

(** A raw row that has its three keys and a timestamp that cannot be
    read. *)
Definition unreadable_row (r : raw_record) : bool :=
  notna (raw_ride_id r) && notna (raw_started_at r) && notna (raw_ended_at r) &&
  match raw_started_at r, raw_ended_at r with
  | Some (Denotes _), Some (Denotes _) => false
  | _, _ => true
  end.

(** Trips whose category is neither ['member'] nor ['casual']. *)
Definition other_trips (df : list trip) : nat :=
  length (filter (fun t => negb (Excel.has_category "member" t)
                           && negb (Excel.has_category "casual" t)) df).

(** A row with its three keys whose start time cannot be read. *)
Definition unreadable_sample : raw_record :=
  {| raw_ride_id := Some "r4";
     raw_started_at := Some Malformed;
     raw_ended_at := Some (Denotes (at_ 19005 9 0 0));
     raw_start_station_name := Some "Clark St";
     raw_end_station_name := None;
     raw_member_casual := Some "member" |}.

(** A row without identifier whose end time cannot be read. *)
Definition keyless_sample : raw_record :=
  {| raw_ride_id := None;
     raw_started_at := Some (Denotes (at_ 19005 9 0 0));
     raw_ended_at := Some Malformed;
     raw_start_station_name := None;
     raw_end_station_name := None;
     raw_member_casual := Some "casual" |}.

(** Two trips whose starts are exactly two days apart. *)
Definition whole_days_rows : list raw_record :=
  [ raw "w1" (at_ 19002 8 0 0) (at_ 19002 8 20 0) (Some "Clark St") (Some "Lake Shore") "casual";
    raw "w2" (at_ 19004 8 0 0) (at_ 19004 8 15 0) (Some "Lake Shore") (Some "Clark St") "member" ].

Definition whole_days_dataset : list trip :=
  concat (Analysis.processed_dataframes [Table whole_days_rows]).

(** One microsecond, in nanoseconds. *)
Definition ns_per_microsecond : Z := 1000.

(** What a raw record shows of its keys and stations, before and after the
    Cleaner's station rule. *)
Definition raw_stations (r : raw_record)
  : (option string * option datetime_text * option datetime_text) * string * string :=
  (raw_key r,
   standardize_station (raw_start_station_name r),
   standardize_station (raw_end_station_name r)).

Definition trip_stations (t : trip)
  : (option string * option datetime_text * option datetime_text) * string * string :=
  (trip_key t, start_station_name t, end_station_name t).

(** * Properties *)

(** ** Columns: counting, distinct values, sorting *)

Section FrameFacts.
Context {K : Type} `{Key K}.

Lemma keqb_refl (k : K) : keqb k k = true.
Proof. now apply keqb_eq. Qed.

Lemma keqb_neq (x y : K) : x <> y -> keqb x y = false.
Proof.
  intros Hxy. destruct (keqb x y) eqn:E; [| reflexivity].
  apply keqb_eq in E. contradiction.
Qed.

Lemma keqb_false (x y : K) : keqb x y = false -> x <> y.
Proof.
  intros E Hxy. subst y. rewrite keqb_refl in E. discriminate.
Qed.

Lemma count_cons_same (k : K) (col : list K) :
  count k (k :: col) = S (count k col).
Proof. unfold count. simpl. now rewrite keqb_refl. Qed.

Lemma count_cons_other (k x : K) (col : list K) :
  k <> x -> count k (x :: col) = count k col.
Proof. intros Hkx. unfold count. simpl. now rewrite (keqb_neq _ _ Hkx). Qed.

Lemma count_absent (k : K) (col : list K) : ~ In k col -> count k col = O.
Proof.
  induction col as [| x r IH]; intros Hk; [reflexivity |].
  rewrite count_cons_other.
  - apply IH. intros Hin. apply Hk. now right.
  - intros ->. apply Hk. now left.
Qed.

Lemma in_remove_key (k y : K) (l : list K) :
  In y (remove_key k l) <-> In y l /\ y <> k.
Proof.
  induction l as [| x r IH]; simpl.
  - tauto.
  - destruct (keqb k x) eqn:E.
    + apply keqb_eq in E. subst x. rewrite IH. split.
      * intros [Hy Hne]. split; [now right | exact Hne].
      * intros [[-> | Hy] Hne]; [contradiction | now split].
    + apply keqb_false in E. simpl. rewrite IH. split.
      * intros [-> | [Hy Hne]]; [split; [now left | congruence] | split; [now right | exact Hne]].
      * intros [[-> | Hy] Hne]; [now left | right; now split].
Qed.

Lemma NoDup_remove_key (k : K) (l : list K) : NoDup l -> NoDup (remove_key k l).
Proof.
  induction 1 as [| x r Hx Hr IH]; simpl; [constructor |].
  destruct (keqb k x); [exact IH |].
  constructor; [| exact IH].
  rewrite in_remove_key. tauto.
Qed.

Lemma in_unique (k : K) (col : list K) : In k (unique col) <-> In k col.
Proof.
  induction col as [| x r IH]; simpl; [tauto |].
  rewrite in_remove_key, IH. split.
  - intros [-> | [Hk _]]; [now left | now right].
  - intros [-> | Hk]; [now left |].
    destruct (keqb x k) eqn:E.
    + apply keqb_eq in E. now left.
    + apply keqb_false in E. right. split; [exact Hk | congruence].
Qed.

Lemma NoDup_unique (col : list K) : NoDup (unique col).
Proof.
  induction col as [| x r IH]; simpl; constructor.
  - rewrite in_remove_key. tauto.
  - now apply NoDup_remove_key.
Qed.

Lemma count_NoDup (k : K) (l : list K) : NoDup l -> In k l -> count k l = 1%nat.
Proof.
  induction 1 as [| x r Hx Hr IH]; intros Hk; [contradiction |].
  destruct Hk as [-> | Hk].
  - rewrite count_cons_same, count_absent; [reflexivity | exact Hx].
  - rewrite count_cons_other; [now apply IH |].
    intros ->. contradiction.
Qed.

(** Splitting a sum over keys into the part of one key and the rest. *)
Lemma list_sum_remove_key (f : K -> nat) (x : K) (l : list K) :
  list_sum (map f l) = (count x l * f x + list_sum (map f (remove_key x l)))%nat.
Proof.
  induction l as [| y r IH]; [reflexivity |].
  simpl remove_key. destruct (keqb x y) eqn:E.
  - apply keqb_eq in E. subst y. rewrite count_cons_same. simpl. rewrite IH. lia.
  - apply keqb_false in E. rewrite (count_cons_other _ _ _ E). simpl. rewrite IH. lia.
Qed.

(** The group sizes add up to the number of rows. *)
Lemma sum_counts_unique (col : list K) :
  list_sum (map (fun k => count k col) (unique col)) = length col.
Proof.
  induction col as [| x r IH]; [reflexivity |].
  simpl unique. simpl map. rewrite count_cons_same. simpl list_sum. simpl length.
  f_equal.
  rewrite (map_ext_in (fun k => count k (x :: r)) (fun k => count k r)).
  - rewrite <- IH.
    rewrite (list_sum_remove_key (fun k => count k r) x (unique r)).
    destruct (in_dec (fun a b => Bool.reflect_dec _ _ (iff_reflect _ _ (iff_sym (keqb_eq a b))))
                     x r) as [Hin | Hout].
    + rewrite (count_NoDup x (unique r) (NoDup_unique r)); [lia |].
      now apply in_unique.
    + rewrite (count_absent x r Hout). lia.
  - intros k Hk. apply in_remove_key in Hk. destruct Hk as [_ Hne].
    now apply count_cons_other.
Qed.

Lemma count_map_filter {A : Type} (key : A -> K) (k : K) (l : list A) :
  count k (map key l) = length (filter (fun a => keqb k (key a)) l).
Proof.
  unfold count. induction l as [| a r IH]; [reflexivity |].
  simpl. destruct (keqb k (key a)); simpl; now rewrite IH.
Qed.

Lemma count_filter (p : K -> bool) (k : K) (col : list K) :
  p k = true -> count k (filter p col) = count k col.
Proof.
  intros Hp. unfold count. induction col as [| x r IH]; [reflexivity |].
  simpl. destruct (p x) eqn:Epx; simpl.
  - destruct (keqb k x); simpl; now rewrite IH.
  - destruct (keqb k x) eqn:E; [| exact IH].
    apply keqb_eq in E. subst x. congruence.
Qed.
End FrameFacts.

Section SortFacts.
Context {A : Type} (le : A -> A -> bool).

Lemma insert_sorted_perm (x : A) (l : list A) :
  Permutation (insert_sorted le x l) (x :: l).
Proof.
  induction l as [| y r IH]; simpl; [reflexivity |].
  destruct (le x y); [reflexivity |].
  rewrite IH. apply perm_swap.
Qed.

Lemma sort_by_perm (l : list A) : Permutation (sort_by le l) l.
Proof.
  induction l as [| x r IH]; simpl; [reflexivity |].
  rewrite insert_sorted_perm. now apply perm_skip.
Qed.

Lemma in_sort_by (x : A) (l : list A) : In x (sort_by le l) <-> In x l.
Proof.
  split; apply Permutation_in; [| symmetry]; apply sort_by_perm.
Qed.
End SortFacts.

Lemma list_sum_perm (l l' : list nat) :
  Permutation l l' -> list_sum l = list_sum l'.
Proof.
  induction 1; simpl; lia.
Qed.

Lemma map_filter_comm {A B : Type} (f : A -> B) (p : B -> bool) (l : list A) :
  map f (filter (fun a => p (f a)) l) = filter p (map f l).
Proof.
  induction l as [| a r IH]; [reflexivity |].
  simpl. destruct (p (f a)); simpl; now rewrite IH.
Qed.

Lemma in_head {A : Type} (n : nat) (x : A) (l : list A) : In x (head n l) -> In x l.
Proof.
  unfold head. revert l. induction n as [| n IH]; intros l Hx; [contradiction |].
  destruct l as [| y r]; [contradiction |].
  destruct Hx as [-> | Hx]; [now left | right; now apply IH].
Qed.

Lemma head_length {A : Type} (n : nat) (l : list A) : (length (head n l) <= n)%nat.
Proof. unfold head. apply firstn_le_length. Qed.

(** ** The Cleaner *)

Lemma Qltb_lt (a b : Q) : Qltb a b = true <-> (a < b)%Q.
Proof.
  unfold Qltb. rewrite negb_true_iff. split.
  - intros E. apply Qnot_le_lt. intros Hle.
    apply Qle_bool_iff in Hle. congruence.
  - intros Hlt. destruct (Qle_bool b a) eqn:E; [| reflexivity].
    apply Qle_bool_iff in E. exfalso. exact (Qlt_not_le _ _ Hlt E).
Qed.

Lemma to_datetime_spec (rows : list raw_record) :
  forall st, to_datetime rows = Some st ->
             map st_raw st = rows /\ Forall consistent st.
Proof.
  induction rows as [| r rest IH]; intros st Hst; simpl in Hst.
  - injection Hst as <-. split; [reflexivity | constructor].
  - destruct (raw_ride_id r) as [id |] eqn:Eid; [| discriminate].
    destruct (raw_started_at r) as [[| s] |] eqn:Es; try discriminate.
    destruct (raw_ended_at r) as [[| e] |] eqn:Ee; try discriminate.
    destruct (to_datetime rest) as [st' |]; [| discriminate].
    injection Hst as <-. destruct (IH st' eq_refl) as [Hmap Hall].
    split; simpl.
    + now rewrite Hmap.
    + constructor; [| exact Hall].
      unfold consistent, raw_key. simpl. now rewrite Eid, Es, Ee.
Qed.

Lemma consistent_duration (s : stamped) :
  consistent s -> raw_duration (st_raw s) = Some (st_duration s).
Proof.
  unfold consistent, raw_key, raw_duration, st_duration.
  intros E. injection E as _ -> ->. reflexivity.
Qed.

Lemma consistent_admissible (s : stamped) :
  consistent s ->
  admissible (st_raw s) = Qltb 0 (st_duration s) && Qle_bool (st_duration s) 1440.
Proof.
  intros Hs. unfold admissible. rewrite (consistent_duration s Hs).
  unfold consistent, raw_key in Hs. injection Hs as -> _ _. reflexivity.
Qed.

Lemma finish_row_cleaned (s : stamped) :
  consistent s -> cleaned_from (st_raw s) (finish_row s).
Proof.
  intros Hs. unfold cleaned_from, trip_key. simpl. repeat split. exact Hs.
Qed.

Lemma filter_implied {A : Type} (f g : A -> bool) (l : list A) :
  (forall a, f a = true -> g a = true) -> filter f (filter g l) = filter f l.
Proof.
  intros Hfg. induction l as [| a r IH]; [reflexivity |].
  simpl. destruct (g a) eqn:Eg; simpl.
  - destruct (f a); now rewrite IH.
  - destruct (f a) eqn:Ef; [| exact IH].
    apply Hfg in Ef. congruence.
Qed.

Lemma filter_and {A : Type} (f g : A -> bool) (l : list A) :
  filter g (filter f l) = filter (fun a => f a && g a) l.
Proof.
  induction l as [| a r IH]; [reflexivity |].
  simpl. destruct (f a); simpl; [destruct (g a) |]; now rewrite IH.
Qed.

(** The table of a file, column by column, in terms of its stamped rows. *)
Lemma temp_dataframe_table (rows : list raw_record) (df : list trip) :
  temp_dataframe (Table rows) = Some df ->
  exists st,
    map st_raw st = dropna rows /\ Forall consistent st /\
    df = map finish_row
           (filter (fun s => Qltb 0 (st_duration s) && Qle_bool (st_duration s) 1440) st).
Proof.
  unfold temp_dataframe. intros Hdf.
  destruct (to_datetime (dropna rows)) as [st |] eqn:Est; [| discriminate].
  injection Hdf as <-. destruct (to_datetime_spec _ _ Est) as [Hmap Hall].
  exists st. repeat split; try assumption.
  now rewrite filter_and.
Qed.

(** Every cleaned row comes from a raw row of the file and is in range. *)
Lemma temp_dataframe_rows (rows : list raw_record) (df : list trip) :
  temp_dataframe (Table rows) = Some df ->
  forall t, In t df ->
    exists r, In r rows /\ cleaned_from r t /\
              (0 < trip_duration_minutes t)%Q /\ (trip_duration_minutes t <= 1440)%Q.
Proof.
  intros Hdf t Ht.
  destruct (temp_dataframe_table rows df Hdf) as (st & Hmap & Hall & ->).
  apply in_map_iff in Ht. destruct Ht as (s & <- & Hs).
  apply filter_In in Hs. destruct Hs as [Hs Hrange].
  apply andb_true_iff in Hrange. destruct Hrange as [Hpos Hmax].
  rewrite Forall_forall in Hall.
  exists (st_raw s). repeat split.
  - assert (Hin : In (st_raw s) (dropna rows)).
    { rewrite <- Hmap. now apply in_map. }
    unfold dropna in Hin. now apply filter_In in Hin.
  - now apply finish_row_cleaned, Hall.
  - now apply Qltb_lt.
  - now apply Qle_bool_iff.
Qed.

Lemma processed_dataframes_in (files : list raw_file) (df : list trip) :
  In df (Analysis.processed_dataframes files) <->
  exists f, In f files /\ temp_dataframe f = Some df.
Proof.
  induction files as [| f rest IH]; simpl.
  - split; [contradiction | intros (f & [] & _)].
  - destruct (temp_dataframe f) as [df' |] eqn:Ef; simpl; rewrite IH; split.
    + intros [-> | (g & Hg & Hdf)]; [exists f; tauto | exists g; tauto].
    + intros (g & [-> | Hg] & Hdf); [left; congruence | right; now exists g].
    + intros (g & Hg & Hdf). exists g; tauto.
    + intros (g & [-> | Hg] & Hdf); [congruence | now exists g].
Qed.

Lemma divvy_dataset_concat (files : list raw_file) (df : list trip) :
  Analysis.divvy_dataset None files = Analysis.Dataset df ->
  df = concat (Analysis.processed_dataframes files).
Proof.
  unfold Analysis.divvy_dataset.
  destruct (Analysis.processed_dataframes files); [discriminate |].
  now intros [= <-].
Qed.

(** Every record of the canonical dataset is the cleaned form of a raw
    record, and is in range. *)
Lemma canonical_rows (df : list trip) :
  canonical df ->
  forall t, In t df ->
    exists r, cleaned_from r t /\
              (0 < trip_duration_minutes t)%Q /\ (trip_duration_minutes t <= 1440)%Q.
Proof.
  intros (files & Hload) t Ht.
  apply divvy_dataset_concat in Hload. subst df.
  apply in_concat in Ht. destruct Ht as (df' & Hdf' & Ht).
  apply processed_dataframes_in in Hdf'. destruct Hdf' as (f & _ & Hf).
  destruct f as [| rows]; [discriminate |].
  destruct (temp_dataframe_rows rows df' Hf t Ht) as (r & _ & Hr).
  now exists r.
Qed.

(** C1.  Every record of the canonical dataset has a duration above 0 and
    at most 1440 minutes, and that duration is the one computed from its own
    two timestamps, never a clamped one.  The cleaned table of a file
    consists, in order, of exactly the raw records that pass the admission
    rule; a raw record whose computed duration is at most 0 or above 1440
    does not pass it and is dropped. *)
Theorem cleaned_duration_in_range :
  (forall df, canonical df -> forall t, In t df ->
     (0 < trip_duration_minutes t)%Q /\ (trip_duration_minutes t <= 1440)%Q /\
     trip_duration_minutes t = duration_minutes (started_at t) (ended_at t)) /\
  (forall rows df, temp_dataframe (Table rows) = Some df ->
     map trip_key df = map raw_key (filter admissible rows)) /\
  (forall r d, raw_duration r = Some d -> (d <= 0 \/ 1440 < d)%Q -> admissible r = false).
Proof.
  split; [| split].
  - intros df Hdf t Ht.
    destruct (canonical_rows df Hdf t Ht) as (r & Hr & Hpos & Hmax).
    repeat split; try assumption. apply Hr.
  - intros rows df Hdf.
    destruct (temp_dataframe_table rows df Hdf) as (st & Hmap & Hall & ->).
    assert (Hkeys : filter admissible rows = filter admissible (dropna rows)).
    { unfold dropna. symmetry. apply filter_implied.
      intros r Hr. unfold admissible in Hr. unfold raw_duration in Hr.
      destruct (raw_ride_id r) as [id |]; [| discriminate].
      destruct (raw_started_at r) as [[| s] |]; try discriminate.
      destruct (raw_ended_at r) as [[| e] |]; try discriminate.
      reflexivity. }
    rewrite Hkeys, <- Hmap. clear Hkeys Hmap Hdf.
    induction Hall as [| s st' Hs Hall IH]; [reflexivity |].
    simpl. rewrite (consistent_admissible s Hs).
    destruct (Qltb 0 (st_duration s) && Qle_bool (st_duration s) 1440); simpl.
    + f_equal; [| exact IH]. symmetry. exact Hs.
    + exact IH.
  - intros r d Hd Hbad. unfold admissible. rewrite Hd.
    destruct (notna (raw_ride_id r)); [simpl | reflexivity].
    destruct Hbad as [Hle | Hgt].
    + destruct (Qltb 0 d) eqn:E; [| reflexivity].
      apply Qltb_lt in E. exfalso. exact (Qlt_not_le _ _ E Hle).
    + destruct (Qle_bool d 1440) eqn:E; [| apply andb_false_r].
      apply Qle_bool_iff in E. exfalso. exact (Qlt_not_le _ _ Hgt E).
Qed.

Lemma cleaned_duration_in_range_witness :
  (forall t, In t sample_dataset ->
     (0 < trip_duration_minutes t)%Q /\ (trip_duration_minutes t <= 1440)%Q /\
     trip_duration_minutes t = duration_minutes (started_at t) (ended_at t)) /\
  map trip_key sample_dataset = map raw_key [sample_short; sample_long] /\
  admissible sample_overlong = false.
Proof.
  destruct cleaned_duration_in_range as (Hrange & Hrows & Hdrop).
  split; [| split].
  - apply Hrange. exists [Table sample_rows]. reflexivity.
  - exact (Hrows sample_rows sample_dataset eq_refl).
  - apply (Hdrop sample_overlong (1500 * 60000000000 # 60000000000)%Q eq_refl).
    right. reflexivity.
Defined.

Lemma admissible_has_keys (rows : list raw_record) :
  filter admissible rows = filter admissible (dropna rows).
Proof.
  unfold dropna. symmetry. apply filter_implied.
  intros r Hr. unfold admissible in Hr. unfold raw_duration in Hr.
  destruct (raw_ride_id r) as [id |]; [| discriminate].
  destruct (raw_started_at r) as [[| s] |]; try discriminate.
  destruct (raw_ended_at r) as [[| e] |]; try discriminate.
  reflexivity.
Qed.

(** Row by row, the keys and the two station names of the cleaned table are
    those of the raw rows that pass the admission rule, the station names
    put through the station rule. *)
Lemma temp_dataframe_stations (rows : list raw_record) (df : list trip) :
  temp_dataframe (Table rows) = Some df ->
  map trip_stations df = map raw_stations (filter admissible rows).
Proof.
  intros Hdf.
  destruct (temp_dataframe_table rows df Hdf) as (st & Hmap & Hall & ->).
  rewrite admissible_has_keys, <- Hmap. clear Hmap Hdf.
  induction Hall as [| s st' Hs Hall IH]; [reflexivity |].
  simpl. rewrite (consistent_admissible s Hs).
  destruct (Qltb 0 (st_duration s) && Qle_bool (st_duration s) 1440); simpl.
  - f_equal; [| exact IH].
    unfold trip_stations, raw_stations, trip_key. simpl. now rewrite Hs.
  - exact IH.
Qed.

(** C2.  The Cleaner's station rule turns a missing or empty name into
    ["Unknown"] and keeps every other name.  The cleaned table of a file
    carries, row by row and in order, the keys of the raw rows that pass the
    admission rule together with the outcome of that rule on the start and
    end station name of the same raw row.  So both station names of every
    record of the canonical dataset are never empty (and never null: the
    cleaned column holds strings): each is the name of the record's own raw
    row, or ["Unknown"] when that name was missing or empty. *)
Theorem cleaned_station_names :
  (forall name,
     standardize_station name <> "" /\
     (name = None \/ name = Some "" -> standardize_station name = "Unknown") /\
     (forall s, name = Some s -> s <> "" -> standardize_station name = s)) /\
  (forall rows df,
     temp_dataframe (Table rows) = Some df ->
     map trip_stations df = map raw_stations (filter admissible rows)) /\
  (forall files df,
     Analysis.divvy_dataset None files = Analysis.Dataset df ->
     forall t, In t df ->
       start_station_name t <> "" /\ end_station_name t <> "" /\
       exists rows r,
         In (Table rows) files /\ In r rows /\ admissible r = true /\
         raw_key r = trip_key t /\
         start_station_name t = standardize_station (raw_start_station_name r) /\
         end_station_name t = standardize_station (raw_end_station_name r)).
Proof.
  assert (Hrule : forall name,
     standardize_station name <> "" /\
     (name = None \/ name = Some "" -> standardize_station name = "Unknown") /\
     (forall s, name = Some s -> s <> "" -> standardize_station name = s)).
  { intros [s |]; simpl.
    - destruct (String.eqb s "") eqn:E.
      + apply String.eqb_eq in E. subst s. repeat split; try discriminate.
        intros s' [= <-] Hs'. contradiction.
      + apply String.eqb_neq in E. repeat split; try assumption.
        * intros [Hnone | [= ->]]; [discriminate | contradiction].
        * now intros s' [= <-] _.
    - repeat split; try discriminate. }
  split; [exact Hrule | split; [exact temp_dataframe_stations |]].
  intros files df Hload t Ht.
  apply divvy_dataset_concat in Hload. subst df.
  apply in_concat in Ht. destruct Ht as (df' & Hdf' & Ht).
  apply processed_dataframes_in in Hdf'. destruct Hdf' as (f & Hf & Hclean).
  destruct f as [| rows]; [discriminate |].
  pose proof (temp_dataframe_stations rows df' Hclean) as Hview.
  assert (Hin : In (trip_stations t) (map raw_stations (filter admissible rows))).
  { rewrite <- Hview. now apply in_map. }
  apply in_map_iff in Hin. destruct Hin as (r & Hr & Hrow).
  apply filter_In in Hrow. destruct Hrow as [Hrow Hadm].
  unfold raw_stations, trip_stations in Hr.
  pose proof (f_equal (fun v => fst (fst v)) Hr) as Hkey.
  pose proof (f_equal (fun v => snd (fst v)) Hr) as Hstart.
  pose proof (f_equal snd Hr) as Hend.
  cbn [fst snd] in Hkey, Hstart, Hend.
  split; [| split].
  - rewrite <- Hstart. apply Hrule.
  - rewrite <- Hend. apply Hrule.
  - exists rows, r. repeat split; try assumption; now symmetry.
Qed.

Lemma cleaned_station_names_witness :
  map trip_stations sample_dataset = map raw_stations [sample_short; sample_long] /\
  start_station_name sample_long_trip = "Unknown" /\
  end_station_name sample_long_trip = "Unknown" /\
  exists rows r,
    In (Table rows) [Table sample_rows] /\ In r rows /\ admissible r = true /\
    raw_key r = trip_key sample_long_trip /\
    start_station_name sample_long_trip
    = standardize_station (raw_start_station_name r) /\
    end_station_name sample_long_trip
    = standardize_station (raw_end_station_name r).
Proof.
  destruct cleaned_station_names as (Hrule & Hrows & Hcanon).
  split; [exact (Hrows sample_rows sample_dataset eq_refl) |].
  split; [exact (proj1 (proj2 (Hrule None)) (or_introl eq_refl)) |].
  split; [exact (proj1 (proj2 (Hrule (Some ""))) (or_intror eq_refl)) |].
  apply (Hcanon [Table sample_rows] sample_dataset eq_refl sample_long_trip).
  right. left. reflexivity.
Defined.

(** C9 (as the code has it).  For every record of the canonical dataset the
    membership indicator is a function of the category alone: 1 when the
    category is ['member'], 0 for any other or missing category.  The value
    the analysis script recomputes for a cached dataset without the column is
    the same. *)
Theorem membership_indicator_of_category :
  forall df, canonical df -> forall t, In t df ->
    membership_indicator t = membership_of (member_casual t) /\
    (member_casual t = Some "member" -> membership_indicator t = 1%Z) /\
    (member_casual t <> Some "member" -> membership_indicator t = 0%Z) /\
    Analysis.ensure_membership_indicator t = membership_indicator t.
Proof.
  intros df Hdf t Ht.
  destruct (canonical_rows df Hdf t Ht) as (r & (_ & _ & _ & Hcat & _ & Hind) & _).
  unfold Analysis.ensure_membership_indicator.
  rewrite Hind, Hcat. unfold membership_of.
  destruct (raw_member_casual r) as [c |]; [| now repeat split].
  destruct (String.eqb c "member") eqn:E.
  - apply String.eqb_eq in E. subst c. repeat split. now intros Hne.
  - apply String.eqb_neq in E. repeat split. intros [= ->]. contradiction.
Qed.

Lemma membership_indicator_of_category_witness :
  membership_indicator sample_long_trip = membership_of (member_casual sample_long_trip) /\
  (member_casual sample_long_trip = Some "member" ->
   membership_indicator sample_long_trip = 1%Z) /\
  (member_casual sample_long_trip <> Some "member" ->
   membership_indicator sample_long_trip = 0%Z) /\
  Analysis.ensure_membership_indicator sample_long_trip
  = membership_indicator sample_long_trip.
Proof.
  apply (membership_indicator_of_category sample_dataset).
  - exists [Table sample_rows]. reflexivity.
  - right. left. reflexivity.
Defined.

Lemma category_not_validated :
  let df := concat (Analysis.processed_dataframes [Table subscriber_rows]) in
  canonical df /\
  exists t, In t df /\
            member_casual t <> Some "member" /\ member_casual t <> Some "casual".
Proof.
  split.
  - exists [Table subscriber_rows]. reflexivity.
  - eexists. split; [left; reflexivity |]. split; discriminate.
Qed.

(** ** Grouped aggregates *)

Section GroupAggFacts.
Context {K : Type} `{Key K}.

Lemma groupby_agg_keys (key : trip -> K) (df : list trip) :
  map g_key (groupby_agg key df) = sort_by kleb (unique (map key df)).
Proof.
  unfold groupby_agg. rewrite map_map. simpl. apply map_id.
Qed.

Lemma groupby_agg_totals (key : trip -> K) (df : list trip) :
  map g_total_trips (groupby_agg key df)
  = map (fun k => count k (map key df)) (sort_by kleb (unique (map key df))).
Proof.
  unfold groupby_agg. rewrite map_map. apply map_ext. intros k. simpl.
  unfold group_of. symmetry. apply count_map_filter.
Qed.

Lemma groupby_agg_row (key : trip -> K) (df : list trip) (row : group_row K) :
  In row (groupby_agg key df) ->
  In (g_key row) (map key df) /\
  g_total_trips row = length (group_of key (g_key row) df).
Proof.
  unfold groupby_agg. intros Hrow. apply in_map_iff in Hrow.
  destruct Hrow as (k & <- & Hk). simpl. split; [| reflexivity].
  apply in_unique. exact (proj1 (in_sort_by kleb k _) Hk).
Qed.

(** Grouping loses and repeats nothing. *)
Lemma groupby_agg_sum (key : trip -> K) (df : list trip) :
  list_sum (map g_total_trips (groupby_agg key df)) = length df.
Proof.
  rewrite groupby_agg_totals.
  rewrite (list_sum_perm _ (map (fun k => count k (map key df)) (unique (map key df)))).
  - rewrite sum_counts_unique. apply length_map.
  - apply Permutation_map, sort_by_perm.
Qed.
End GroupAggFacts.

(** C10.  The trip counts of the rows of the day-of-week aggregate add up to
    the number of records of the dataset.  The aggregate has one row per
    observed day and none twice, every record's day has a row, and the count
    of a row is the number of records of that day. *)
Theorem daily_counts_sum_to_total :
  forall df,
    list_sum (map g_total_trips (Excel.daily_data df)) = Excel.total_trips df /\
    NoDup (map g_key (Excel.daily_data df)) /\
    (forall t, In t df -> In (day_of_week t) (map g_key (Excel.daily_data df))) /\
    (forall row, In row (Excel.daily_data df) ->
       g_total_trips row
       = length (filter (fun t => String.eqb (g_key row) (day_of_week t)) df)).
Proof.
  intros df. unfold Excel.daily_data, Excel.total_trips.
  set (by_code := fun a b : group_row string =>
                    code_leb (category_code day_order (g_key a))
                             (category_code day_order (g_key b))).
  pose proof (sort_by_perm by_code (groupby_agg day_of_week df)) as Hperm.
  repeat split.
  - rewrite (list_sum_perm _ _ (Permutation_map g_total_trips Hperm)).
    apply groupby_agg_sum.
  - apply (Permutation_NoDup (Permutation_sym (Permutation_map g_key Hperm))).
    rewrite groupby_agg_keys.
    apply (Permutation_NoDup (Permutation_sym (sort_by_perm _ _))).
    apply NoDup_unique.
  - intros t Ht.
    apply (Permutation_in _ (Permutation_sym (Permutation_map g_key Hperm))).
    rewrite groupby_agg_keys. apply in_sort_by, in_unique.
    now apply in_map.
  - intros row Hrow. apply (Permutation_in _ Hperm) in Hrow.
    exact (proj2 (groupby_agg_row _ _ _ Hrow)).
Qed.

Lemma daily_counts_sum_to_total_witness :
  list_sum (map g_total_trips (Excel.daily_data sample_dataset)) = 2%nat /\
  In (day_of_week sample_long_trip) (map g_key (Excel.daily_data sample_dataset)).
Proof.
  destruct (daily_counts_sum_to_total sample_dataset) as (Hsum & _ & Hdays & _).
  split; [exact Hsum |].
  apply Hdays. right. left. reflexivity.
Defined.

(** ** Station tables and station efficiency *)

Section CountTables.
Context {K : Type} `{Key K}.

Lemma value_counts_row (col : list K) (row : K * nat) :
  In row (value_counts col) -> In (fst row) col /\ snd row = count (fst row) col.
Proof.
  unfold value_counts. intros Hrow.
  apply in_sort_by, in_map_iff in Hrow.
  destruct Hrow as (k & <- & Hk). simpl. split; [| reflexivity].
  now apply in_unique.
Qed.

Lemma groupby_size_sum (col : list K) :
  list_sum (map snd (groupby_size col)) = length col.
Proof.
  unfold groupby_size. rewrite map_map. simpl.
  rewrite (list_sum_perm _ (map (fun k => count k col) (unique col))).
  - apply sum_counts_unique.
  - apply Permutation_map, sort_by_perm.
Qed.

Lemma groupby_size_length (col : list K) :
  length (groupby_size col) = nunique col.
Proof.
  unfold groupby_size, nunique. rewrite length_map.
  apply Permutation_length, sort_by_perm.
Qed.
End CountTables.

Lemma is_real_iff (name : string) : is_real name = true <-> name <> "Unknown".
Proof.
  unfold is_real. rewrite negb_true_iff. apply String.eqb_neq.
Qed.

(** A row of a top list taken over the real names of a column: its name is
    no sentinel and its count is that of the name in the whole column. *)
Lemma real_top_row (n : nat) (col : trip -> string) (df : list trip)
    (row : string * nat) :
  In row (head n (value_counts (map col (filter (fun t => is_real (col t)) df)))) ->
  fst row <> "Unknown" /\ snd row = count (fst row) (map col df).
Proof.
  intros Hrow. apply in_head, value_counts_row in Hrow.
  rewrite (map_filter_comm col is_real) in Hrow.
  destruct Hrow as [Hin ->]. apply filter_In in Hin. destruct Hin as [_ Hreal].
  split; [now apply is_real_iff | now apply count_filter].
Qed.

Lemma top_stations_row (total : nat) (col : list string) (row : Excel.station_row) :
  In row (Excel.top_stations total col) ->
  In (Excel.station_name row) col /\
  Excel.station_total_trips row = count (Excel.station_name row) col /\
  Excel.percentage row = (Qnat (Excel.station_total_trips row) / Qnat total * 100)%Q.
Proof.
  unfold Excel.top_stations. intros Hrow. apply in_map_iff in Hrow.
  destruct Hrow as (r & <- & Hr). simpl.
  apply in_head, value_counts_row in Hr. destruct Hr as [Hin Hcount].
  now repeat split.
Qed.

(** C5 (as the code has it).  The top-10 tables of the analysis script hold
    real stations only, each with its number of trips in the whole dataset;
    they have no percentage.  In the top-20 tables of the export script each
    row holds its number of trips in the whole dataset and, as percentage,
    100 times that number over the total number of trips of the dataset.  No
    table is longer than its N. *)
Theorem top_station_rows :
  forall df,
    (forall row, In row (Analysis.real_stations_start df) ->
       fst row <> "Unknown" /\ snd row = count (fst row) (map start_station_name df)) /\
    (forall row, In row (Analysis.real_stations_end df) ->
       fst row <> "Unknown" /\ snd row = count (fst row) (map end_station_name df)) /\
    (forall row, In row (Excel.start_stations df) ->
       Excel.station_total_trips row
       = count (Excel.station_name row) (map start_station_name df) /\
       Excel.percentage row
       = (Qnat (Excel.station_total_trips row) / Qnat (Excel.total_trips df) * 100)%Q) /\
    (forall row, In row (Excel.end_stations df) ->
       Excel.station_total_trips row
       = count (Excel.station_name row) (map end_station_name df) /\
       Excel.percentage row
       = (Qnat (Excel.station_total_trips row) / Qnat (Excel.total_trips df) * 100)%Q) /\
    (length (Analysis.real_stations_start df) <= 10)%nat /\
    (length (Analysis.real_stations_end df) <= 10)%nat /\
    (length (Excel.start_stations df) <= 20)%nat /\
    (length (Excel.end_stations df) <= 20)%nat.
Proof.
  intros df.
  split; [| split; [| split; [| split; [| split; [| split; [| split]]]]]].
  - intros row Hrow. now apply real_top_row in Hrow.
  - intros row Hrow. now apply real_top_row in Hrow.
  - intros row Hrow. apply top_stations_row in Hrow. tauto.
  - intros row Hrow. apply top_stations_row in Hrow. tauto.
  - apply head_length.
  - apply head_length.
  - unfold Excel.start_stations, Excel.top_stations. rewrite length_map. apply head_length.
  - unfold Excel.end_stations, Excel.top_stations. rewrite length_map. apply head_length.
Qed.

Lemma top_station_rows_witness :
  (forall row, In row (Analysis.real_stations_start sample_dataset) ->
     fst row <> "Unknown" /\
     snd row = count (fst row) (map start_station_name sample_dataset)) /\
  (forall row, In row (Excel.start_stations sample_dataset) ->
     Excel.percentage row
     = (Qnat (Excel.station_total_trips row) / Qnat (Excel.total_trips sample_dataset) * 100)%Q).
Proof.
  destruct (top_station_rows sample_dataset) as (Hstart & _ & Hexcel & _).
  split; [exact Hstart |].
  intros row Hrow. exact (proj2 (Hexcel row Hrow)).
Defined.

Lemma export_top_stations_list_unknown :
  canonical sample_dataset /\
  exists row, In row (Excel.start_stations sample_dataset) /\
              Excel.station_name row = "Unknown".
Proof.
  split.
  - exists [Table sample_rows]. reflexivity.
  - eexists. split; [right; left; reflexivity | reflexivity].
Qed.

Lemma Qnat_plus (n m : nat) : (Qnat (n + m) == Qnat n + Qnat m)%Q.
Proof.
  unfold Qnat. now rewrite Nat2Z.inj_add, inject_Z_plus.
Qed.

Lemma Qnat_is_zero (n : nat) : Qeq_bool (Qnat n) 0 = true <-> n = O.
Proof.
  rewrite Qeq_bool_iff. unfold Qnat, Qeq. simpl. lia.
Qed.

Lemma truediv_Qnat (a : Q) (n : nat) :
  truediv a (Qnat n)
  = match n with
    | O => Raise ZeroDivisionError
    | S _ => Ok (a / Qnat n)%Q
    end.
Proof.
  unfold truediv. destruct (Qeq_bool (Qnat n) 0) eqn:E.
  - apply Qnat_is_zero in E. now subst n.
  - destruct n; [| reflexivity].
    now rewrite (proj2 (Qnat_is_zero O) eq_refl) in E.
Qed.

Lemma Qsum_Qnat {A : Type} (f : A -> nat) (l : list A) :
  (Qsum (map (fun a => Qnat (f a)) l) == Qnat (list_sum (map f l)))%Q.
Proof.
  induction l as [| a r IH]; simpl; [reflexivity |].
  now rewrite IH, Qnat_plus.
Qed.

Lemma series_mean_nonempty (l : list Q) :
  l <> [] -> series_mean l = Fin (Qsum l / Qnat (length l))%Q.
Proof.
  destruct l; [contradiction | reflexivity].
Qed.

Lemma total_active_stations_real (df : list trip) :
  Analysis.total_active_stations df = Excel.real_stations df.
Proof.
  unfold Analysis.total_active_stations, Analysis.station_utilization_data.
  apply groupby_size_length.
Qed.

(** The mean number of trips per real start station. *)
Lemma average_station_efficiency_value (df : list trip) :
  (0 < Excel.real_stations df)%nat ->
  feq (Analysis.average_station_efficiency df)
      (Fin (Qnat (length (filter (fun t => is_real (start_station_name t)) df))
            / Qnat (Excel.real_stations df))).
Proof.
  intros Hreal. unfold Analysis.average_station_efficiency.
  pose proof (total_active_stations_real df) as Hlen.
  unfold Analysis.total_active_stations in Hlen.
  rewrite series_mean_nonempty.
  - simpl. rewrite length_map, Hlen, Qsum_Qnat.
    unfold Analysis.station_utilization_data. rewrite groupby_size_sum, length_map.
    reflexivity.
  - intros Hnil. apply (f_equal (@length Q)) in Hnil.
    rewrite length_map, Hlen in Hnil. simpl in Hnil. lia.
Qed.

Lemma no_real_station_nan (df : list trip) :
  Excel.real_stations df = O -> Analysis.average_station_efficiency df = NaN.
Proof.
  intros Hreal. unfold Analysis.average_station_efficiency.
  pose proof (total_active_stations_real df) as Hlen.
  unfold Analysis.total_active_stations in Hlen. rewrite Hreal in Hlen.
  destruct (Analysis.station_utilization_data df); [reflexivity | discriminate].
Qed.

Lemma filter_all {A : Type} (p : A -> bool) (l : list A) :
  (forall a, In a l -> p a = true) -> filter p l = l.
Proof.
  induction l as [| a r IH]; intros Hall; [reflexivity |].
  simpl. rewrite (Hall a (or_introl eq_refl)). f_equal.
  apply IH. intros b Hb. apply Hall. now right.
Qed.

(** C3 (as the code has it).  With at least one real start station, the
    export script's station efficiency is the total number of trips over the
    number of distinct real start stations, and the analysis script's is the
    number of trips that start at a real station over that same number; both
    scripts count the same stations, and the two values are equal when no
    trip starts at ["Unknown"]. *)
Theorem station_efficiency_values :
  forall df, (0 < Excel.real_stations df)%nat ->
    Excel.station_efficiency df
    = Ok (Qnat (Excel.total_trips df) / Qnat (Excel.real_stations df))%Q /\
    feq (Analysis.average_station_efficiency df)
        (Fin (Qnat (length (filter (fun t => is_real (start_station_name t)) df))
              / Qnat (Excel.real_stations df))) /\
    Analysis.total_active_stations df = Excel.real_stations df /\
    ((forall t, In t df -> start_station_name t <> "Unknown") ->
     feq (Analysis.average_station_efficiency df)
         (Fin (Qnat (Excel.total_trips df) / Qnat (Excel.real_stations df)))).
Proof.
  intros df Hreal. split; [| split; [| split]].
  - unfold Excel.station_efficiency. rewrite truediv_Qnat.
    destruct (Excel.real_stations df); [lia | reflexivity].
  - now apply average_station_efficiency_value.
  - apply total_active_stations_real.
  - intros Hall. pose proof (average_station_efficiency_value df Hreal) as Hval.
    rewrite filter_all in Hval; [exact Hval |].
    intros t Ht. now apply is_real_iff, Hall.
Qed.

Lemma station_efficiency_values_witness :
  Excel.station_efficiency sample_dataset
  = Ok (Qnat (Excel.total_trips sample_dataset) / Qnat (Excel.real_stations sample_dataset))%Q /\
  feq (Analysis.average_station_efficiency sample_dataset)
      (Fin (Qnat (length (filter (fun t => is_real (start_station_name t)) sample_dataset))
            / Qnat (Excel.real_stations sample_dataset))) /\
  feq (Analysis.average_station_efficiency day_and_a_half_dataset)
      (Fin (Qnat (Excel.total_trips day_and_a_half_dataset)
            / Qnat (Excel.real_stations day_and_a_half_dataset))).
Proof.
  assert (Hreal : (0 < Excel.real_stations sample_dataset)%nat) by (vm_compute; lia).
  assert (Hreal' : (0 < Excel.real_stations day_and_a_half_dataset)%nat)
    by (vm_compute; lia).
  destruct (station_efficiency_values sample_dataset Hreal) as (Hexport & Hanalysis & _).
  destruct (station_efficiency_values day_and_a_half_dataset Hreal') as (_ & _ & _ & Hsame).
  split; [exact Hexport | split; [exact Hanalysis |]].
  apply Hsame. intros t Ht. vm_compute in Ht.
  destruct Ht as [<- | [<- | []]]; discriminate.
Defined.

Lemma analysis_station_efficiency_omits_unknown :
  canonical sample_dataset /\
  exists k, Analysis.key_performance_indicators sample_dataset = Ok k /\
            feq (Analysis.k_average_station_efficiency k) (Fin 1) /\
            (Qnat (Analysis.total_trips sample_dataset)
             / Qnat (Excel.real_stations sample_dataset) == 2)%Q /\
            ~ feq (Analysis.k_average_station_efficiency k)
                  (Fin (Qnat (Analysis.total_trips sample_dataset)
                        / Qnat (Excel.real_stations sample_dataset))).
Proof.
  split.
  - exists [Table sample_rows]. reflexivity.
  - eexists. split; [reflexivity |]. repeat split.
    intros Heq. vm_compute in Heq. discriminate.
Qed.

(** ** Satisfaction rate *)

Lemma optimal_duration_iff (t : trip) :
  optimal_duration t = true <->
  (5 <= trip_duration_minutes t)%Q /\ (trip_duration_minutes t <= 60)%Q.
Proof.
  unfold optimal_duration. now rewrite andb_true_iff, !Qle_bool_iff.
Qed.

Lemma satisfaction_rate_nonempty (df : list trip) :
  df <> [] ->
  Excel.satisfaction_rate df
  = Ok (Qnat (length (filter optimal_duration df)) / Qnat (length df) * 100)%Q.
Proof.
  intros Hdf. unfold Excel.satisfaction_rate, Excel.optimal_trips, Excel.total_trips.
  rewrite truediv_Qnat. destruct df; [contradiction | reflexivity].
Qed.

(** C8.  A trip counts as optimal exactly when its duration is at least 5
    and at most 60 minutes.  On a dataset that is not empty both scripts
    return the same satisfaction rate, 100 times the number of optimal trips
    over the number of trips.  Of the three sample records, lasting 10, 70
    and 1500 minutes, cleaning keeps the first two, and both scripts report a
    satisfaction rate of 50. *)
Theorem satisfaction_rate_value :
  (forall t, optimal_duration t = true <->
             (5 <= trip_duration_minutes t)%Q /\ (trip_duration_minutes t <= 60)%Q) /\
  (forall df, df <> [] ->
     exists q,
       Analysis.user_satisfaction_rate df = Ok q /\
       Excel.satisfaction_rate df = Ok q /\
       (q == 100 * Qnat (length (filter optimal_duration df)) / Qnat (length df))%Q) /\
  (Forall2 (fun r d => exists q, raw_duration r = Some q /\ (q == d)%Q)
           sample_rows [10%Q; 70%Q; 1500%Q] /\
   temp_dataframe (Table sample_rows) = Some sample_dataset /\
   length sample_dataset = 2%nat /\
   exists ka ke,
     Analysis.key_performance_indicators sample_dataset = Ok ka /\
     Excel.kpi_data sample_dataset = Ok ke /\
     (Analysis.k_user_satisfaction_rate ka == 50)%Q /\
     (Excel.k_satisfaction_rate ke == 50)%Q).
Proof.
  split; [exact optimal_duration_iff | split].
  - intros df Hdf. eexists. split; [| split].
    + apply (satisfaction_rate_nonempty df Hdf).
    + apply (satisfaction_rate_nonempty df Hdf).
    + unfold Qdiv. ring.
  - split; [| split; [| split]].
    + repeat constructor; eexists; (split; [reflexivity | reflexivity]).
    + reflexivity.
    + reflexivity.
    + do 2 eexists. repeat split.
Qed.

Lemma satisfaction_rate_value_witness :
  exists q,
    Analysis.user_satisfaction_rate sample_dataset = Ok q /\
    Excel.satisfaction_rate sample_dataset = Ok q /\
    (q == 100 * Qnat (length (filter optimal_duration sample_dataset))
          / Qnat (length sample_dataset))%Q.
Proof.
  apply (proj1 (proj2 satisfaction_rate_value)). discriminate.
Defined.

(** ** Daily efficiency *)

Lemma fold_left_min_le (rest : list Z) (t : Z) : (fold_left Z.min rest t <= t)%Z.
Proof.
  revert t. induction rest as [| x r IH]; intros t; simpl; [lia |].
  specialize (IH (Z.min t x)). lia.
Qed.

Lemma fold_left_max_ge (rest : list Z) (t : Z) : (t <= fold_left Z.max rest t)%Z.
Proof.
  revert t. induction rest as [| x r IH]; intros t; simpl; [lia |].
  specialize (IH (Z.max t x)). lia.
Qed.

Lemma started_span_nonneg (df : list trip) : (0 <= started_span df)%Z.
Proof.
  unfold started_span. destruct (map started_at df) as [| t rest]; simpl; [lia |].
  pose proof (fold_left_min_le rest t). pose proof (fold_left_max_ge rest t). lia.
Qed.

Lemma started_bounds (df : list trip) :
  df <> [] ->
  exists lo hi,
    series_min (map started_at df) = Some lo /\
    series_max (map started_at df) = Some hi /\
    started_span df = (hi - lo)%Z.
Proof.
  intros Hdf. unfold started_span. destruct df as [| t r]; [contradiction |].
  simpl. now do 2 eexists.
Qed.

Lemma analysis_period_days_eq (lo hi : Z) :
  (Analysis.analysis_period_days lo hi == inject_Z (hi - lo) / inject_Z ns_per_day)%Q.
Proof.
  unfold Analysis.analysis_period_days, total_seconds, Qdiv, Qeq. simpl. lia.
Qed.

Lemma analysis_period_days_zero (lo hi : Z) :
  Qeq_bool (Analysis.analysis_period_days lo hi) 0 = true <-> (hi - lo = 0)%Z.
Proof.
  rewrite Qeq_bool_iff.
  unfold Analysis.analysis_period_days, total_seconds, Qdiv, Qeq. simpl. lia.
Qed.

Lemma analysis_daily_value (df : list trip) :
  df <> [] ->
  (started_span df = 0%Z -> Analysis.daily_trip_efficiency df = Raise ZeroDivisionError) /\
  (started_span df <> 0%Z ->
   exists a, Analysis.daily_trip_efficiency df = Ok a /\
             (a == Qnat (length df)
                   / (inject_Z (started_span df) / inject_Z ns_per_day))%Q).
Proof.
  intros Hdf. destruct (started_bounds df Hdf) as (lo & hi & Hlo & Hhi & Hspan).
  unfold Analysis.daily_trip_efficiency, Analysis.total_trips.
  rewrite Hlo, Hhi, Hspan. unfold truediv.
  destruct (Qeq_bool (Analysis.analysis_period_days lo hi) 0) eqn:E.
  - apply analysis_period_days_zero in E. split; [reflexivity | contradiction].
  - split.
    + intros Hzero. apply analysis_period_days_zero in Hzero. congruence.
    + intros _. eexists. split; [reflexivity |].
      now rewrite analysis_period_days_eq.
Qed.

Lemma export_daily_value (df : list trip) :
  df <> [] ->
  Excel.daily_efficiency df
  = if (started_span df <? ns_per_day)%Z then Raise ZeroDivisionError
    else Ok (Qnat (length df) / inject_Z (started_span df / ns_per_day))%Q.
Proof.
  intros Hdf. destruct (started_bounds df Hdf) as (lo & hi & Hlo & Hhi & Hspan).
  pose proof (started_span_nonneg df) as Hnonneg.
  unfold Excel.daily_efficiency, Excel.date_range, Excel.total_trips, days.
  rewrite Hlo, Hhi, <- Hspan. unfold truediv.
  assert (Hday : (0 < ns_per_day)%Z) by reflexivity.
  destruct (started_span df <? ns_per_day)%Z eqn:Elt.
  - apply Z.ltb_lt in Elt. rewrite Z.div_small; [reflexivity | lia].
  - apply Z.ltb_ge in Elt.
    assert (Hq : (0 < started_span df / ns_per_day)%Z)
      by (apply Z.div_str_pos; lia).
    destruct (Qeq_bool (inject_Z (started_span df / ns_per_day)) 0) eqn:E;
      [| reflexivity].
    apply Qeq_bool_iff in E. unfold Qeq in E. simpl in E. lia.
Qed.




(** ** Zero denominators and absent groups *)

Lemma filter_none {A : Type} (p : A -> bool) (l : list A) :
  (forall a, In a l -> p a = false) -> filter p l = [].
Proof.
  induction l as [| a r IH]; intros Hnone; [reflexivity |].
  simpl. rewrite (Hnone a (or_introl eq_refl)).
  apply IH. intros b Hb. apply Hnone. now right.
Qed.

Lemma member_percentage_value (df : list trip) :
  Excel.member_percentage df
  = match df with
    | [] => Raise ZeroDivisionError
    | _ :: _ => Ok (Qnat (Excel.member_trips df) / Qnat (Excel.total_trips df) * 100)%Q
    end.
Proof.
  unfold Excel.member_percentage. rewrite truediv_Qnat.
  unfold Excel.total_trips. now destruct df.
Qed.

Lemma isin_absent (labels : list string) (label : string) :
  ~ In label labels -> Excel.isin labels label = false.
Proof.
  intros Habsent. unfold Excel.isin.
  destruct (existsb (String.eqb label) labels) eqn:E; [| reflexivity].
  apply existsb_exists in E. destruct E as (x & Hx & Heq).
  apply String.eqb_eq in Heq. subst x. contradiction.
Qed.

(** Whatever stops the KPI section of the export script is a division by
    zero. *)
Lemma kpi_data_raises (df : list trip) (e : exn) :
  Excel.kpi_data df = Raise e -> e = ZeroDivisionError.
Proof.
  unfold Excel.kpi_data. rewrite member_percentage_value.
  destruct df as [| t r]; [now intros [= <-] |].
  cbn [bind]. rewrite export_daily_value by discriminate.
  destruct (started_span (t :: r) <? ns_per_day)%Z; [now intros [= <-] |].
  cbn [bind]. unfold Excel.station_efficiency. rewrite truediv_Qnat.
  destruct (Excel.real_stations (t :: r)); [now intros [= <-] |].
  cbn [bind]. rewrite satisfaction_rate_nonempty by discriminate.
  discriminate.
Qed.

Lemma kpi_data_ok (df : list trip) (k : Excel.kpis) :
  Excel.kpi_data df = Ok k ->
  df <> [] /\ (ns_per_day <= started_span df)%Z /\ (0 < Excel.real_stations df)%nat.
Proof.
  unfold Excel.kpi_data. rewrite member_percentage_value.
  destruct df as [| t r]; [discriminate |].
  cbn [bind]. rewrite export_daily_value by discriminate.
  destruct (started_span (t :: r) <? ns_per_day)%Z eqn:Elt; [discriminate |].
  cbn [bind]. unfold Excel.station_efficiency. rewrite truediv_Qnat.
  destruct (Excel.real_stations (t :: r)); [discriminate |].
  intros _. apply Z.ltb_ge in Elt. repeat split; [discriminate | exact Elt | lia].
Qed.

Lemma analysis_kpis_value (df : list trip) :
  df <> [] ->
  (started_span df = 0%Z ->
   Analysis.key_performance_indicators df = Raise ZeroDivisionError) /\
  (started_span df <> 0%Z ->
   exists k, Analysis.key_performance_indicators df = Ok k /\
             Analysis.k_average_station_efficiency k
             = Analysis.average_station_efficiency df).
Proof.
  intros Hdf. destruct (analysis_daily_value df Hdf) as [Hzero Hpos].
  destruct (started_bounds df Hdf) as (lo & hi & Hlo & Hhi & _).
  unfold Analysis.key_performance_indicators. rewrite Hlo, Hhi. split.
  - intros Hspan. now rewrite (Hzero Hspan).
  - intros Hspan. destruct (Hpos Hspan) as (a & -> & _). cbn [bind].
    change (Analysis.user_satisfaction_rate df) with (Excel.satisfaction_rate df).
    rewrite (satisfaction_rate_nonempty df Hdf). cbn [bind].
    eexists. split; reflexivity.
Qed.

Lemma station_mean_without_stations_is_nan :
  canonical dockless_dataset /\
  Excel.real_stations dockless_dataset = O /\
  exists k, Analysis.run None [Table dockless_rows] = Analysis.Charts k /\
            Analysis.k_average_station_efficiency k = NaN.
Proof.
  split; [| split].
  - exists [Table dockless_rows]. reflexivity.
  - reflexivity.
  - eexists. split; reflexivity.
Qed.

(** ** Exit status *)

Lemma processed_dataframes_nil (files : list raw_file) :
  Analysis.processed_dataframes files = [] <->
  forall f, In f files -> temp_dataframe f = None.
Proof.
  induction files as [| f rest IH]; simpl.
  - split; [intros _ g [] | reflexivity].
  - destruct (temp_dataframe f) as [df |] eqn:Ef.
    + split; [discriminate |].
      intros Hall. specialize (Hall f (or_introl eq_refl)). congruence.
    + rewrite IH. split.
      * intros Hall g [<- | Hg]; [exact Ef | now apply Hall].
      * intros Hall g Hg. apply Hall. now right.
Qed.

(** C7 (as the code has it).  The loading stage leaves with [exit(1)]
    exactly when there is no processed file and no raw file was cleaned
    without an exception, that is when every raw file raised; it never exits
    with another code.  In every other case it hands a dataset to the rest of
    the script: the cached one, or the concatenation of the cleaned tables,
    files that raised being skipped.  A run that stops in the loading stage
    has exit status 1. *)
Theorem exit_when_nothing_processed :
  forall cache files,
    (forall code, Analysis.divvy_dataset cache files = Analysis.SystemExit code <->
                  code = 1%Z /\ cache = None /\ Analysis.processed_dataframes files = []) /\
    (forall df, Analysis.divvy_dataset cache files = Analysis.Dataset df <->
                cache = Some df \/
                (cache = None /\ Analysis.processed_dataframes files <> [] /\
                 df = concat (Analysis.processed_dataframes files))) /\
    (Analysis.processed_dataframes files = [] <->
     forall f, In f files -> temp_dataframe f = None) /\
    (forall code, Analysis.run cache files = Analysis.Exited code <->
                  code = 1%Z /\ cache = None /\ Analysis.processed_dataframes files = []) /\
    (cache = None /\ Analysis.processed_dataframes files = [] ->
     Analysis.exit_status (Analysis.run cache files) = Some 1%Z).
Proof.
  intros cache files.
  assert (Hexit : forall code,
            Analysis.divvy_dataset cache files = Analysis.SystemExit code <->
            code = 1%Z /\ cache = None /\ Analysis.processed_dataframes files = []).
  { intros code. unfold Analysis.divvy_dataset.
    destruct cache as [df |]; [split; [discriminate | intros (_ & Hc & _); discriminate] |].
    destruct (Analysis.processed_dataframes files) as [| d ds].
    - split; [intros [= <-]; now repeat split | intros (-> & _); reflexivity].
    - split; [discriminate | intros (_ & _ & Hp); discriminate]. }
  split; [exact Hexit | split; [| split; [| split]]].
  - intros df. unfold Analysis.divvy_dataset.
    destruct cache as [df' |].
    + split; [intros [= <-]; now left | intros [[= <-] | (Hc & _)]; [reflexivity | discriminate]].
    + destruct (Analysis.processed_dataframes files) as [| d ds].
      * split; [discriminate | intros [Hc | (_ & Hp & _)]; [discriminate | contradiction]].
      * split; [intros [= <-]; right; now repeat split
               | intros [Hc | (_ & _ & ->)]; [discriminate | reflexivity]].
  - apply processed_dataframes_nil.
  - intros code. rewrite <- Hexit. unfold Analysis.run.
    destruct (Analysis.divvy_dataset cache files) as [df | c].
    + destruct (Analysis.key_performance_indicators df); split; discriminate.
    + split; intros [= <-]; reflexivity.
  - intros (Hc & Hp). unfold Analysis.run.
    now rewrite (proj2 (Hexit 1%Z) (conj eq_refl (conj Hc Hp))).
Qed.

Lemma exit_when_nothing_processed_witness :
  Analysis.exit_status (Analysis.run None [Unreadable; Table [raw "x" 0 0 None None "member"
                                                      ; {| raw_ride_id := Some "y";
                                                           raw_started_at := Some Malformed;
                                                           raw_ended_at := Some (Denotes 0);
                                                           raw_start_station_name := None;
                                                           raw_end_station_name := None;
                                                           raw_member_casual := None |}]])
  = Some 1%Z.
Proof.
  apply (proj2 (proj2 (proj2 (proj2 (exit_when_nothing_processed None _))))).
  split; reflexivity.
Defined.

Lemma uncaught_error_after_loading :
  Analysis.processed_dataframes [Table [sample_short]] = [single_trip_dataset] /\
  Analysis.run None [Table [sample_short]] = Analysis.Uncaught ZeroDivisionError /\
  Analysis.exit_status (Analysis.run None [Table [sample_short]]) = Some 1%Z /\
  Analysis.exit_status (Analysis.run (Some single_trip_dataset) []) = Some 1%Z.
Proof.
  repeat split.
Qed.

(** * Further properties of the scripts *)

Local Open Scope list_scope.

(** ** Processing of the raw files *)

Lemma processed_dataframes_app (a b : list raw_file) :
  Analysis.processed_dataframes (a ++ b)
  = Analysis.processed_dataframes a ++ Analysis.processed_dataframes b.
Proof.
  induction a as [| f r IH]; [reflexivity |].
  simpl. destruct (temp_dataframe f); simpl; now rewrite IH.
Qed.

(** X1.  A raw file whose processing raises is skipped without a trace: the
    cleaned tables, and so the combined dataset or the exit, are those of the
    batch without that file; the files before and after it keep their
    order. *)
Theorem failing_file_is_skipped :
  forall before f after,
    temp_dataframe f = None ->
    Analysis.processed_dataframes (before ++ f :: after)
    = Analysis.processed_dataframes before ++ Analysis.processed_dataframes after /\
    forall cache,
      Analysis.divvy_dataset cache (before ++ f :: after)
      = Analysis.divvy_dataset cache (before ++ after).
Proof.
  intros before f after Hf.
  assert (Hskip : Analysis.processed_dataframes (before ++ f :: after)
                  = Analysis.processed_dataframes (before ++ after)).
  { rewrite !processed_dataframes_app. simpl. now rewrite Hf. }
  split.
  - now rewrite Hskip, processed_dataframes_app.
  - intros cache. unfold Analysis.divvy_dataset. now rewrite Hskip.
Qed.

Lemma failing_file_is_skipped_witness :
  Analysis.processed_dataframes ([Table [sample_short]] ++ Unreadable :: [Table sample_rows])
  = Analysis.processed_dataframes [Table [sample_short]]
    ++ Analysis.processed_dataframes [Table sample_rows].
Proof.
  apply (failing_file_is_skipped [Table [sample_short]] Unreadable [Table sample_rows]).
  reflexivity.
Defined.

Lemma to_datetime_none (rows : list raw_record) :
  to_datetime rows = None <->
  exists r, In r rows /\
            match raw_ride_id r, raw_started_at r, raw_ended_at r with
            | Some _, Some (Denotes _), Some (Denotes _) => False
            | _, _, _ => True
            end.
Proof.
  induction rows as [| r rest IH]; simpl.
  - split; [discriminate | intros (r & [] & _)].
  - destruct (raw_ride_id r) as [id |] eqn:Eid.
    2: { split; [intros _ | reflexivity]. exists r. rewrite Eid. tauto. }
    destruct (raw_started_at r) as [[| s] |] eqn:Es.
    1, 3: split; [intros _ | reflexivity]; exists r; rewrite Eid, Es; tauto.
    destruct (raw_ended_at r) as [[| e] |] eqn:Ee.
    1, 3: split; [intros _ | reflexivity]; exists r; rewrite Eid, Es, Ee; tauto.
    destruct (to_datetime rest) as [st |]; simpl.
    + split; [discriminate |].
      intros (r' & [<- | Hin] & Hbad).
      * rewrite Eid, Es, Ee in Hbad. contradiction.
      * assert (Hnone : Some st = None) by (apply IH; now exists r').
        discriminate.
    + split; [intros _ | reflexivity].
      destruct (proj1 IH eq_refl) as (r' & Hin & Hbad).
      exists r'. split; [now right | exact Hbad].
Qed.

(** X2.  When a row of a file has its three keys and a start or end time
    that cannot be read, the conversion raises and the whole file is lost.
    A row that lacks a key is dropped before the conversion: whatever its
    other cells hold, the file is processed as if the row were not there. *)
Theorem unreadable_row_loses_file :
  forall rows,
    ((exists r, In r rows /\ unreadable_row r = true) ->
     temp_dataframe (Table rows) = None) /\
    temp_dataframe (Table rows) = temp_dataframe (Table (dropna rows)) /\
    (forall before r after,
        rows = before ++ r :: after ->
        notna (raw_ride_id r) && notna (raw_started_at r) && notna (raw_ended_at r)
        = false ->
        temp_dataframe (Table rows) = temp_dataframe (Table (before ++ after))).
Proof.
  intros rows. split; [| split].
  - intros (r & Hin & Hbad). unfold temp_dataframe.
    assert (Hnone : to_datetime (dropna rows) = None).
    { apply to_datetime_none. exists r. unfold unreadable_row in Hbad.
      apply andb_true_iff in Hbad. destruct Hbad as [Hkeys Hbad].
      split; [unfold dropna; apply filter_In; now split |].
      destruct (raw_ride_id r) as [id |]; [| discriminate].
      destruct (raw_started_at r) as [[| s] |]; try exact I.
      destruct (raw_ended_at r) as [[| e] |]; try exact I. discriminate. }
    now rewrite Hnone.
  - unfold temp_dataframe, dropna. now rewrite filter_implied.
  - intros before r after -> Hkeys. unfold temp_dataframe, dropna.
    rewrite !filter_app. cbn [filter]. now rewrite Hkeys.
Qed.

Lemma unreadable_row_loses_file_witness :
  temp_dataframe (Table (sample_rows ++ [unreadable_sample])) = None /\
  temp_dataframe (Table (keyless_sample :: sample_rows))
  = temp_dataframe (Table sample_rows).
Proof.
  destruct (unreadable_row_loses_file (sample_rows ++ [unreadable_sample]))
    as (Hlost & _ & _).
  destruct (unreadable_row_loses_file (keyless_sample :: sample_rows))
    as (_ & _ & Hdropped).
  split.
  - apply Hlost. exists unreadable_sample. split; [| reflexivity].
    apply in_or_app. right. now left.
  - apply (Hdropped [] keyless_sample sample_rows); reflexivity.
Defined.

Lemma list_sum_length_concat {A : Type} (ls : list (list A)) :
  length (concat ls) = list_sum (map (@length A) ls).
Proof.
  induction ls as [| l r IH]; [reflexivity |].
  simpl. now rewrite length_app, IH.
Qed.

Lemma temp_dataframe_length (rows : list raw_record) (df : list trip) :
  temp_dataframe (Table rows) = Some df ->
  length df = length (filter admissible rows).
Proof.
  intros Hdf.
  destruct (temp_dataframe_table rows df Hdf) as (st & Hmap & Hall & ->).
  assert (Hkeys : filter admissible rows = filter admissible (dropna rows)).
  { unfold dropna. symmetry. apply filter_implied.
    intros r Hr. unfold admissible in Hr. unfold raw_duration in Hr.
    destruct (raw_ride_id r) as [id |]; [| discriminate].
    destruct (raw_started_at r) as [[| s] |]; try discriminate.
    destruct (raw_ended_at r) as [[| e] |]; try discriminate.
    reflexivity. }
  rewrite Hkeys, <- Hmap, length_map. clear Hkeys Hmap Hdf.
  induction Hall as [| s st' Hs Hall IH]; [reflexivity |].
  simpl. rewrite (consistent_admissible s Hs).
  destruct (Qltb 0 (st_duration s) && Qle_bool (st_duration s) 1440); simpl;
    now rewrite IH.
Qed.

Lemma admitted_count_length (f : raw_file) :
  admitted_count f
  = match temp_dataframe f with
    | Some df => length df
    | None => O
    end.
Proof.
  unfold admitted_count. destruct f as [| rows]; [reflexivity |].
  destruct (temp_dataframe (Table rows)) as [df |] eqn:Ef; [| reflexivity].
  symmetry. now apply temp_dataframe_length.
Qed.

(** X4.  The combined dataset has as many records as the files that were
    processed have rows passing the admission rule, file by file; a file
    whose processing raised adds none, and nothing is removed across files
    (no deduplication). *)
Theorem combined_record_count :
  forall files,
    length (concat (Analysis.processed_dataframes files))
    = list_sum (map admitted_count files).
Proof.
  intros files. rewrite list_sum_length_concat.
  induction files as [| f rest IH]; [reflexivity |].
  simpl. rewrite admitted_count_length.
  destruct (temp_dataframe f) as [df |]; simpl; now rewrite IH.
Qed.

(** ** The KPIs of the two scripts *)

Lemma Qnat_le (n m : nat) : (n <= m)%nat -> (Qnat n <= Qnat m)%Q.
Proof. intros Hnm. unfold Qnat. rewrite <- Zle_Qle. lia. Qed.

Lemma Qnat_pos (n : nat) : (0 < n)%nat -> (0 < Qnat n)%Q.
Proof. intros Hn. unfold Qnat, Qlt. simpl. lia. Qed.

Lemma Qnat_nonneg (n : nat) : (0 <= Qnat n)%Q.
Proof. unfold Qnat, Qle. simpl. lia. Qed.

Lemma Qnat_succ (n : nat) : (Qnat (S n) == 1 + Qnat n)%Q.
Proof. exact (Qnat_plus 1 n). Qed.

(** A share of a total, as a percentage, lies between 0 and 100. *)
Lemma share_range (a n : nat) :
  (a <= n)%nat -> (0 < n)%nat ->
  (0 <= Qnat a / Qnat n * 100)%Q /\ (Qnat a / Qnat n * 100 <= 100)%Q.
Proof.
  intros Han Hn. pose proof (Qnat_pos n Hn) as Hpos. split.
  - apply Qmult_le_0_compat; [| discriminate].
    apply Qle_shift_div_l; [exact Hpos |].
    rewrite Qmult_0_l. apply Qnat_nonneg.
  - apply Qle_trans with (1 * 100)%Q; [| discriminate].
    apply Qmult_le_compat_r; [| discriminate].
    apply Qle_shift_div_r; [exact Hpos |].
    rewrite Qmult_1_l. now apply Qnat_le.
Qed.

Lemma analysis_kpis_fields (df : list trip) (k : Analysis.kpis) :
  Analysis.key_performance_indicators df = Ok k ->
  df <> [] /\
  Analysis.daily_trip_efficiency df = Ok (Analysis.k_daily_trip_efficiency k) /\
  Analysis.user_satisfaction_rate df = Ok (Analysis.k_user_satisfaction_rate k) /\
  Analysis.k_member_user_percentage k
  = Analysis.percent (series_mean (map (fun t => inject_Z (membership_indicator t)) df)) /\
  Analysis.k_average_trip_duration k = series_mean (map trip_duration_minutes df) /\
  Analysis.k_total_usage_hours k = (Qsum (map trip_duration_minutes df) / 60)%Q /\
  Analysis.k_average_station_efficiency k = Analysis.average_station_efficiency df.
Proof.
  unfold Analysis.key_performance_indicators. intros Hk.
  destruct df as [| t r]; [discriminate |].
  cbn [map series_min series_max] in Hk.
  destruct (Analysis.daily_trip_efficiency (t :: r)) as [daily | e]; [| discriminate].
  destruct (Analysis.user_satisfaction_rate (t :: r)) as [rate | e]; [| discriminate].
  cbn [bind] in Hk. injection Hk as <-. cbn.
  repeat split. discriminate.
Qed.

Lemma export_kpis_fields (df : list trip) (k : Excel.kpis) :
  Excel.kpi_data df = Ok k ->
  df <> [] /\
  Excel.member_percentage df = Ok (Excel.k_member_percentage k) /\
  Excel.daily_efficiency df = Ok (Excel.k_daily_efficiency k) /\
  Excel.station_efficiency df = Ok (Excel.k_station_efficiency k) /\
  Excel.satisfaction_rate df = Ok (Excel.k_satisfaction_rate k) /\
  Excel.k_avg_duration k = series_mean (map trip_duration_minutes df) /\
  Excel.k_total_hours k = (Qsum (map trip_duration_minutes df) / 60)%Q.
Proof.
  intros Hk. pose proof (kpi_data_ok df k Hk) as (Hdf & _).
  unfold Excel.kpi_data in Hk.
  destruct (Excel.member_percentage df) as [m | e]; [| discriminate].
  destruct (Excel.daily_efficiency df) as [d | e]; [| discriminate].
  destruct (Excel.station_efficiency df) as [s | e]; [| discriminate].
  destruct (Excel.satisfaction_rate df) as [r | e]; [| discriminate].
  cbn [bind] in Hk. injection Hk as <-. cbn. now repeat split.
Qed.

Lemma membership_of_category (t : trip) :
  membership_of (member_casual t)
  = if Excel.has_category "member" t then 1%Z else 0%Z.
Proof.
  unfold membership_of, Excel.has_category. now destruct (member_casual t).
Qed.

Lemma canonical_indicator (df : list trip) :
  canonical df ->
  forall t, In t df -> membership_indicator t = membership_of (member_casual t).
Proof.
  intros Hdf t Ht.
  destruct (canonical_rows df Hdf t Ht) as (r & (_ & _ & _ & Hcat & _ & Hind) & _).
  now rewrite Hind, Hcat.
Qed.

Lemma indicator_sum (df : list trip) :
  (forall t, In t df -> membership_indicator t = membership_of (member_casual t)) ->
  (Qsum (map (fun t => inject_Z (membership_indicator t)) df)
   == Qnat (Excel.member_trips df))%Q.
Proof.
  unfold Excel.member_trips.
  induction df as [| t r IH]; intros Hall; [reflexivity |].
  cbn [map Qsum fold_right filter].
  change (fold_right Qplus 0%Q (map (fun t => inject_Z (membership_indicator t)) r))
    with (Qsum (map (fun t => inject_Z (membership_indicator t)) r)).
  rewrite IH by (intros u Hu; apply Hall; now right).
  rewrite (Hall t (or_introl eq_refl)), membership_of_category.
  destruct (Excel.has_category "member" t); cbn [length].
  - rewrite Qnat_succ. reflexivity.
  - apply Qplus_0_l.
Qed.

(** X5.  On the canonical dataset the two scripts report the same member
    percentage: the mean of the membership indicator times 100 in the
    analysis script is the share of rows whose category is ['member'] in the
    export script. *)
Theorem member_percentage_agrees :
  forall df ka ke,
    canonical df ->
    Analysis.key_performance_indicators df = Ok ka ->
    Excel.kpi_data df = Ok ke ->
    feq (Analysis.k_member_user_percentage ka) (Fin (Excel.k_member_percentage ke)).
Proof.
  intros df ka ke Hdf Hka Hke.
  destruct (analysis_kpis_fields df ka Hka) as (Hne & _ & _ & -> & _).
  destruct (export_kpis_fields df ke Hke) as (_ & Hm & _).
  rewrite member_percentage_value in Hm.
  destruct df as [| t r]; [contradiction |].
  injection Hm as <-.
  rewrite series_mean_nonempty by discriminate.
  cbn [Analysis.percent feq]. rewrite length_map.
  rewrite (indicator_sum (t :: r) (canonical_indicator (t :: r) Hdf)).
  reflexivity.
Qed.

Lemma member_percentage_agrees_witness :
  exists ka ke,
    Analysis.key_performance_indicators sample_dataset = Ok ka /\
    Excel.kpi_data sample_dataset = Ok ke /\
    feq (Analysis.k_member_user_percentage ka) (Fin (Excel.k_member_percentage ke)).
Proof.
  do 2 eexists. split; [reflexivity | split; [reflexivity |]].
  apply (member_percentage_agrees sample_dataset);
    [exists [Table sample_rows] | |]; reflexivity.
Defined.

Lemma category_partition (df : list trip) :
  (Excel.member_trips df + Excel.casual_trips df + other_trips df)%nat
  = Excel.total_trips df.
Proof.
  unfold Excel.member_trips, Excel.casual_trips, other_trips, Excel.total_trips.
  induction df as [| t r IH]; [reflexivity |].
  cbn [filter].
  destruct (Excel.has_category "member" t) eqn:Em;
    destruct (Excel.has_category "casual" t) eqn:Ec;
    cbn [negb andb length]; try lia.
  unfold Excel.has_category in Em, Ec.
  destruct (member_casual t) as [c |]; [| discriminate].
  apply String.eqb_eq in Em, Ec. congruence.
Qed.

(** X6.  Every trip is counted once as member, as casual or as neither, so
    member and casual trips together never exceed the total.  The "casual
    percentage" that the export script reports as 100 minus the member
    percentage is the share of all trips that are not ['member'], those of a
    missing or foreign category included; it is the share of the casual
    trips when there are no such trips. *)
Theorem casual_share_is_complement :
  forall df, df <> [] ->
    (Excel.member_trips df + Excel.casual_trips df + other_trips df)%nat
    = Excel.total_trips df /\
    exists m,
      Excel.member_percentage df = Ok m /\
      (100 - m == (Qnat (Excel.casual_trips df) + Qnat (other_trips df))
                  / Qnat (Excel.total_trips df) * 100)%Q /\
      (other_trips df = O ->
       (100 - m == Qnat (Excel.casual_trips df) / Qnat (Excel.total_trips df) * 100)%Q).
Proof.
  intros df Hdf. pose proof (category_partition df) as Hsum.
  split; [exact Hsum |].
  rewrite member_percentage_value. destruct df as [| t r]; [contradiction |].
  eexists. split; [reflexivity |].
  assert (Hpos : ~ (Qnat (Excel.total_trips (t :: r)) == 0)%Q).
  { intros Hz. apply Qeq_bool_iff, Qnat_is_zero in Hz. discriminate. }
  assert (Hshare : (100 - Qnat (Excel.member_trips (t :: r))
                         / Qnat (Excel.total_trips (t :: r)) * 100
                    == (Qnat (Excel.casual_trips (t :: r)) + Qnat (other_trips (t :: r)))
                       / Qnat (Excel.total_trips (t :: r)) * 100)%Q).
  { rewrite <- Hsum at 2. rewrite !Qnat_plus. rewrite <- Hsum in Hpos.
    rewrite !Qnat_plus in Hpos. rewrite <- Hsum. rewrite !Qnat_plus.
    field. exact Hpos. }
  split; [exact Hshare |].
  intros Hother. rewrite Hshare, Hother.
  unfold Qnat at 2. simpl inject_Z. now rewrite Qplus_0_r.
Qed.

Lemma casual_share_is_complement_witness :
  exists m,
    Excel.member_percentage sample_dataset = Ok m /\
    (100 - m == Qnat (Excel.casual_trips sample_dataset)
                / Qnat (Excel.total_trips sample_dataset) * 100)%Q.
Proof.
  destruct (casual_share_is_complement sample_dataset) as (_ & m & Hm & _ & Hcasual);
    [discriminate |].
  exists m. split; [exact Hm | apply Hcasual; reflexivity].
Defined.

Lemma Qsum_range (l : list Q) :
  Forall (fun d => 0 < d /\ d <= 1440)%Q l ->
  (0 <= Qsum l)%Q /\ (Qsum l <= 1440 * Qnat (length l))%Q /\
  (l <> [] -> 0 < Qsum l)%Q.
Proof.
  induction 1 as [| d r [Hpos Hmax] Hall (IH0 & IHmax & IHpos)].
  - repeat split; try discriminate. intros Hnil. contradiction.
  - cbn [Qsum fold_right length]. change (fold_right Qplus 0%Q r) with (Qsum r).
    assert (Hlt : (0 < d + Qsum r)%Q).
    { apply Qlt_le_trans with (d + 0)%Q; [now rewrite Qplus_0_r |].
      apply Qplus_le_compat; [apply Qle_refl | exact IH0]. }
    split; [now apply Qlt_le_weak | split; [| intros _; exact Hlt]].
    rewrite Qnat_succ, Qmult_plus_distr_r, Qmult_1_r.
    now apply Qplus_le_compat.
Qed.

Lemma canonical_durations (df : list trip) :
  canonical df ->
  Forall (fun d => 0 < d /\ d <= 1440)%Q (map trip_duration_minutes df).
Proof.
  intros Hdf. apply Forall_forall. intros d Hd.
  apply in_map_iff in Hd. destruct Hd as (t & <- & Ht).
  destruct (canonical_rows df Hdf t Ht) as (_ & _ & Hrange). exact Hrange.
Qed.

Lemma div_by_at_least_one (n d : Q) :
  (0 < n)%Q -> (1 <= d)%Q -> (0 < n / d)%Q /\ (n / d <= n)%Q.
Proof.
  intros Hn Hd.
  assert (Hpos : (0 < d)%Q) by (apply Qlt_le_trans with 1%Q; [reflexivity | exact Hd]).
  split.
  - apply Qlt_shift_div_l; [exact Hpos |]. now rewrite Qmult_0_l.
  - apply Qle_shift_div_r; [exact Hpos |].
    rewrite <- (Qmult_1_r n) at 1.
    apply Qmult_le_l; assumption.
Qed.

Lemma remove_key_length {K : Type} `{Key K} (k : K) (l : list K) :
  (length (remove_key k l) <= length l)%nat.
Proof.
  induction l as [| x r IH]; [reflexivity |].
  simpl. destruct (keqb k x); simpl; lia.
Qed.

Lemma nunique_le_length {K : Type} `{Key K} (col : list K) :
  (nunique col <= length col)%nat.
Proof.
  unfold nunique. induction col as [| x r IH]; [reflexivity |].
  simpl. pose proof (remove_key_length x (unique r)). lia.
Qed.

Lemma filter_length_le {A : Type} (p : A -> bool) (l : list A) :
  (length (filter p l) <= length l)%nat.
Proof.
  induction l as [| a r IH]; [reflexivity |].
  simpl. destruct (p a); simpl; lia.
Qed.

Lemma real_stations_le_total (df : list trip) :
  (Excel.real_stations df <= length df)%nat.
Proof.
  unfold Excel.real_stations.
  pose proof (nunique_le_length
                (map start_station_name
                     (filter (fun t => is_real (start_station_name t)) df))) as Hle.
  rewrite length_map in Hle.
  pose proof (filter_length_le (fun t => is_real (start_station_name t)) df). lia.
Qed.

Lemma member_percentage_nonempty (df : list trip) :
  df <> [] ->
  Excel.member_percentage df
  = Ok (Qnat (Excel.member_trips df) / Qnat (length df) * 100)%Q.
Proof.
  intros Hdf. rewrite member_percentage_value.
  destruct df; [contradiction | reflexivity].
Qed.

(** X7.  When the KPI section of the export script completes on the
    canonical dataset, its figures are within their natural bounds: the
    member percentage and the satisfaction rate between 0 and 100, the
    average duration above 0 and at most 1440 minutes, the total hours above
    0 and at most 24 per trip, the daily efficiency above 0 and at most the
    number of trips, the station efficiency at least 1 and at most the number
    of trips. *)
Theorem export_kpi_ranges :
  forall df k,
    canonical df -> Excel.kpi_data df = Ok k ->
    (0 <= Excel.k_member_percentage k <= 100)%Q /\
    (exists a, Excel.k_avg_duration k = Fin a /\ (0 < a <= 1440)%Q) /\
    (0 < Excel.k_total_hours k <= 24 * Qnat (Excel.total_trips df))%Q /\
    (0 < Excel.k_daily_efficiency k <= Qnat (Excel.total_trips df))%Q /\
    (1 <= Excel.k_station_efficiency k <= Qnat (Excel.total_trips df))%Q /\
    (0 <= Excel.k_satisfaction_rate k <= 100)%Q.
Proof.
  intros df k Hcanon Hk.
  destruct (kpi_data_ok df k Hk) as (Hdf & Hspan & Hreal).
  destruct (export_kpis_fields df k Hk) as (_ & Hm & Hd & Hs & Hr & Havg & Hhours).
  assert (Hn : (0 < length df)%nat) by (destruct df; [contradiction | simpl; lia]).
  pose proof (Qnat_pos _ Hn) as Hnpos.
  destruct (Qsum_range _ (canonical_durations df Hcanon)) as (_ & Hmax & Hpos).
  rewrite length_map in Hmax.
  assert (Hsum : (0 < Qsum (map trip_duration_minutes df))%Q).
  { apply Hpos. destruct df; [contradiction | discriminate]. }
  unfold Excel.total_trips.
  split; [| split; [| split; [| split; [| split]]]].
  - rewrite member_percentage_nonempty in Hm by exact Hdf. injection Hm as <-.
    apply share_range; [apply filter_length_le | exact Hn].
  - rewrite Havg, series_mean_nonempty by (destruct df; [contradiction | discriminate]).
    eexists. split; [reflexivity |]. rewrite length_map. split.
    + apply Qlt_shift_div_l; [exact Hnpos | now rewrite Qmult_0_l].
    + apply Qle_shift_div_r; [exact Hnpos | exact Hmax].
  - rewrite Hhours. split.
    + apply Qlt_shift_div_l; [reflexivity | now rewrite Qmult_0_l].
    + apply Qle_shift_div_r; [reflexivity |].
      apply Qle_trans with (1440 * Qnat (length df))%Q; [exact Hmax |].
      apply Qle_lteq. right. ring.
  - rewrite export_daily_value in Hd by exact Hdf.
    rewrite (proj2 (Z.ltb_ge _ _) Hspan) in Hd. injection Hd as <-.
    apply div_by_at_least_one; [exact Hnpos |].
    rewrite <- (Zle_Qle 1). apply Z.div_le_lower_bound; [reflexivity | lia].
  - unfold Excel.station_efficiency in Hs. rewrite truediv_Qnat in Hs.
    destruct (Excel.real_stations df) as [| real] eqn:Ereal; [lia |].
    injection Hs as <-. split.
    + apply Qle_shift_div_l; [apply Qnat_pos; lia |].
      rewrite Qmult_1_l. apply Qnat_le. rewrite <- Ereal. apply real_stations_le_total.
    + apply div_by_at_least_one; [exact Hnpos |].
      change 1%Q with (Qnat 1). apply Qnat_le. lia.
  - rewrite satisfaction_rate_nonempty in Hr by exact Hdf. injection Hr as <-.
    apply share_range; [apply filter_length_le | exact Hn].
Qed.

Lemma export_kpi_ranges_witness :
  exists k,
    Excel.kpi_data sample_dataset = Ok k /\
    (0 <= Excel.k_member_percentage k <= 100)%Q /\
    (1 <= Excel.k_station_efficiency k <= Qnat (Excel.total_trips sample_dataset))%Q.
Proof.
  eexists. split; [reflexivity |].
  destruct (export_kpi_ranges sample_dataset _ (ex_intro _ [Table sample_rows] eq_refl) eq_refl)
    as (Hmember & _ & _ & _ & Hstation & _).
  split; assumption.
Defined.

Lemma Qdiv_le_anti (n x y : Q) :
  (0 <= n)%Q -> (0 < x)%Q -> (x <= y)%Q -> (n / y <= n / x)%Q.
Proof.
  intros Hn Hx Hxy.
  assert (Hy : (0 < y)%Q) by (apply Qlt_le_trans with x; assumption).
  apply Qle_shift_div_l; [exact Hx |].
  unfold Qdiv. rewrite <- Qmult_assoc, (Qmult_comm (/ y) x).
  change (n * (x / y) <= n)%Q.
  rewrite <- (Qmult_1_r n) at 2.
  apply Qmult_le_compat_nonneg; split; try assumption; try apply Qle_refl.
  - apply Qle_shift_div_l; [exact Hy |]. rewrite Qmult_0_l. now apply Qlt_le_weak.
  - apply Qle_shift_div_r; [exact Hy |]. now rewrite Qmult_1_l.
Qed.

(** X8.  When both scripts complete their KPI sections on the same dataset,
    the export script never reports less than the analysis script: its daily
    efficiency divides by the whole days of the span instead of the exact
    span, and its station efficiency counts the trips from ["Unknown"]
    too. *)
Theorem export_efficiencies_dominate :
  forall df ka ke,
    Analysis.key_performance_indicators df = Ok ka ->
    Excel.kpi_data df = Ok ke ->
    (Analysis.k_daily_trip_efficiency ka <= Excel.k_daily_efficiency ke)%Q /\
    exists a, Analysis.k_average_station_efficiency ka = Fin a /\
              (a <= Excel.k_station_efficiency ke)%Q.
Proof.
  intros df ka ke Hka Hke.
  destruct (kpi_data_ok df ke Hke) as (Hdf & Hspan & Hreal).
  destruct (analysis_kpis_fields df ka Hka) as (_ & Hda & _ & _ & _ & _ & Hsa).
  destruct (export_kpis_fields df ke Hke) as (_ & _ & Hde & Hse & _).
  assert (Hday : (0 < ns_per_day)%Z) by reflexivity.
  split.
  - destruct (analysis_daily_value df Hdf) as [_ Hpos].
    destruct (Hpos ltac:(lia)) as (a & Ha & Hval).
    rewrite Ha in Hda. injection Hda as <-.
    rewrite export_daily_value in Hde by exact Hdf.
    rewrite (proj2 (Z.ltb_ge _ _) Hspan) in Hde. injection Hde as <-.
    rewrite Hval. apply Qdiv_le_anti.
    + apply Qnat_nonneg.
    + rewrite <- (Zlt_Qlt 0). apply Z.div_str_pos. lia.
    + apply Qle_shift_div_l; [now rewrite <- (Zlt_Qlt 0) |].
      rewrite <- inject_Z_mult, <- Zle_Qle, Z.mul_comm.
      apply Z.mul_div_le. exact Hday.
  - rewrite Hsa. pose proof (average_station_efficiency_value df Hreal) as Havg.
    destruct (Analysis.average_station_efficiency df) as [a |]; [| contradiction].
    exists a. split; [reflexivity |]. cbn [feq] in Havg. rewrite Havg.
    unfold Excel.station_efficiency in Hse. rewrite truediv_Qnat in Hse.
    destruct (Excel.real_stations df) as [| real]; [lia |].
    injection Hse as <-. unfold Qdiv. apply Qmult_le_compat_r.
    + apply Qnat_le, filter_length_le.
    + apply Qinv_le_0_compat, Qnat_nonneg.
Qed.

Lemma export_efficiencies_dominate_witness :
  exists ka ke,
    Analysis.key_performance_indicators sample_dataset = Ok ka /\
    Excel.kpi_data sample_dataset = Ok ke /\
    (Analysis.k_daily_trip_efficiency ka <= Excel.k_daily_efficiency ke)%Q.
Proof.
  do 2 eexists. split; [reflexivity | split; [reflexivity |]].
  apply (export_efficiencies_dominate sample_dataset); reflexivity.
Defined.

(** ** Sorted tables *)


Section SortedFacts.
Context {A : Type} (le : A -> A -> bool).
Hypothesis le_total : forall a b, le a b = true \/ le b a = true.
Hypothesis le_trans : forall a b c, le a b = true -> le b c = true -> le a c = true.

Lemma insert_sorted_sorted (x : A) (l : list A) :
  StronglySorted (fun a b => le a b = true) l ->
  StronglySorted (fun a b => le a b = true) (insert_sorted le x l).
Proof.
  induction 1 as [| y r Hr IH Hy]; simpl.
  - constructor; constructor.
  - destruct (le x y) eqn:Exy.
    + constructor; [now constructor |].
      constructor; [exact Exy |].
      rewrite Forall_forall in Hy |- *. intros z Hz.
      apply (le_trans x y z); [exact Exy | now apply Hy].
    + constructor; [exact IH |].
      rewrite Forall_forall in Hy |- *. intros z Hz.
      apply (Permutation_in _ (insert_sorted_perm le x r)) in Hz.
      destruct Hz as [<- | Hz]; [| now apply Hy].
      destruct (le_total x y) as [Hxy | Hyx]; [congruence | exact Hyx].
Qed.

Lemma sort_by_sorted (l : list A) :
  StronglySorted (fun a b => le a b = true) (sort_by le l).
Proof.
  induction l as [| x r IH]; simpl; [constructor |].
  now apply insert_sorted_sorted.
Qed.
End SortedFacts.

(** Two sorted lists with the same elements are the same list. *)
Lemma sorted_perm_eq {A : Type} (R : A -> A -> Prop) (l l' : list A) :
  (forall a b, In a l -> In b l -> R a b -> R b a -> a = b) ->
  Permutation l l' -> StronglySorted R l -> StronglySorted R l' -> l = l'.
Proof.
  revert l'. induction l as [| a r IH]; intros l' Hanti Hperm Hl Hl'.
  - apply Permutation_nil in Hperm. now subst.
  - destruct l' as [| b r'].
    { apply Permutation_sym, Permutation_nil in Hperm. discriminate. }
    apply StronglySorted_inv in Hl, Hl'.
    destruct Hl as [Hr Ha], Hl' as [Hr' Hb].
    rewrite Forall_forall in Ha, Hb.
    assert (Hab : a = b).
    { assert (Hin : In a (b :: r')) by (apply (Permutation_in _ Hperm); now left).
      destruct Hin as [-> | Hin]; [reflexivity |].
      assert (Hin' : In b (a :: r))
        by (apply (Permutation_in _ (Permutation_sym Hperm)); now left).
      destruct Hin' as [-> | Hin']; [reflexivity |].
      apply Hanti; [now left | now right | now apply Ha | now apply Hb]. }
    subst b. f_equal. apply IH; try assumption.
    + intros x y Hx Hy. apply Hanti; now right.
    + now apply Permutation_cons_inv in Hperm.
Qed.

Lemma sorted_app_rel {A : Type} (R : A -> A -> Prop) (l1 l2 : list A) :
  StronglySorted R (l1 ++ l2) ->
  forall a b, In a l1 -> In b l2 -> R a b.
Proof.
  induction l1 as [| x r IH]; intros Hs a b Ha Hb; [contradiction |].
  simpl in Hs. apply StronglySorted_inv in Hs. destruct Hs as [Hr Hx].
  destruct Ha as [<- | Ha].
  - rewrite Forall_forall in Hx. apply Hx, in_or_app. now right.
  - now apply IH.
Qed.

Lemma sorted_filter {A : Type} (R : A -> A -> Prop) (p : A -> bool) (l : list A) :
  StronglySorted R l -> StronglySorted R (filter p l).
Proof.
  induction 1 as [| x r Hr IH Hx]; simpl; [constructor |].
  destruct (p x); [| exact IH].
  constructor; [exact IH |].
  rewrite Forall_forall in Hx |- *. intros y Hy.
  apply Hx. now apply filter_In in Hy.
Qed.

Lemma sorted_strict (l : list Z) :
  StronglySorted (fun a b => (a <=? b)%Z = true) l -> NoDup l ->
  StronglySorted Z.lt l.
Proof.
  induction 1 as [| x r Hr IH Hx]; intros Hnd; [constructor |].
  apply NoDup_cons_iff in Hnd. destruct Hnd as [Hout Hnd].
  constructor; [now apply IH |].
  rewrite Forall_forall in Hx |- *. intros y Hy.
  specialize (Hx y Hy). apply Z.leb_le in Hx.
  assert (x <> y) by (intros ->; contradiction). lia.
Qed.

Lemma Zleb_total (a b : Z) : (a <=? b)%Z = true \/ (b <=? a)%Z = true.
Proof. rewrite !Z.leb_le. lia. Qed.

Lemma Zleb_trans (a b c : Z) :
  (a <=? b)%Z = true -> (b <=? c)%Z = true -> (a <=? c)%Z = true.
Proof. rewrite !Z.leb_le. lia. Qed.

(** ** Hourly table *)

Lemma hour_range (t : Z) : (0 <= hour t < 24)%Z.
Proof. unfold hour. apply Z.mod_pos_bound. reflexivity. Qed.

Lemma hourly_keys (df : list trip) :
  map g_key (Excel.hourly_data df) = sort_by Z.leb (unique (map start_hour df)).
Proof. unfold Excel.hourly_data. exact (groupby_agg_keys start_hour df). Qed.

Lemma hourly_keys_NoDup (df : list trip) : NoDup (map g_key (Excel.hourly_data df)).
Proof.
  rewrite hourly_keys.
  apply (Permutation_NoDup (Permutation_sym (sort_by_perm _ _))), NoDup_unique.
Qed.

(** X9.  The hourly table has one row per hour of the day in which a trip
    started, in ascending order of the hour and none twice, so at most 24
    rows; each row counts the trips of its hour, at least one, and an hour
    without a trip has no row. *)
Theorem hourly_rows_shape :
  forall df,
    StronglySorted Z.lt (map g_key (Excel.hourly_data df)) /\
    (length (Excel.hourly_data df) <= 24)%nat /\
    (forall row, In row (Excel.hourly_data df) ->
       (0 <= g_key row < 24)%Z /\ (1 <= g_total_trips row)%nat /\
       g_total_trips row
       = length (filter (fun t => Z.eqb (g_key row) (start_hour t)) df)) /\
    (forall h, In h (map g_key (Excel.hourly_data df)) <->
               exists t, In t df /\ start_hour t = h).
Proof.
  intros df.
  assert (Hmem : forall h, In h (map g_key (Excel.hourly_data df)) <->
                           exists t, In t df /\ start_hour t = h).
  { intros h. rewrite hourly_keys, in_sort_by, in_unique, in_map_iff.
    split; intros (t & H1 & H2); exists t; tauto. }
  assert (Hrange : forall h, In h (map g_key (Excel.hourly_data df)) -> (0 <= h < 24)%Z).
  { intros h Hh. apply Hmem in Hh. destruct Hh as (t & _ & <-). apply hour_range. }
  split; [| split; [| split]].
  - apply sorted_strict; [| apply hourly_keys_NoDup].
    rewrite hourly_keys. apply sort_by_sorted; [apply Zleb_total | apply Zleb_trans].
  - rewrite <- (length_map g_key).
    change 24%nat with (length (map Z.of_nat (seq 0 24))).
    apply NoDup_incl_length; [apply hourly_keys_NoDup |].
    intros h Hh. apply Hrange in Hh. apply in_map_iff.
    exists (Z.to_nat h). split; [lia | apply in_seq; lia].
  - intros row Hrow. split; [apply Hrange; now apply in_map |].
    destruct (groupby_agg_row start_hour df row Hrow) as [Hkey Htotal].
    split; [| exact Htotal].
    rewrite Htotal. apply in_map_iff in Hkey. destruct Hkey as (t & Ht & Hin).
    assert (Hg : In t (group_of start_hour (g_key row) df)).
    { apply filter_In. split; [exact Hin |]. apply keqb_eq. now symmetry. }
    destruct (group_of start_hour (g_key row) df); [contradiction | simpl; lia].
  - exact Hmem.
Qed.

(** X10.  When at least one trip started in hour [h], the look-up of the
    row of that hour succeeds and returns the number of trips that started in
    it. *)
Theorem peak_hour_lookup :
  forall df h,
    (exists t, In t df /\ start_hour t = h) ->
    Excel.peak_hour_trips df h
    = Ok (length (filter (fun t => Z.eqb h (start_hour t)) df)).
Proof.
  intros df h (t & Ht & Hh). unfold Excel.peak_hour_trips.
  destruct (filter (fun row => Z.eqb (g_key row) h) (Excel.hourly_data df))
    as [| row rest] eqn:Erows.
  - exfalso.
    assert (Hkey : In h (map g_key (Excel.hourly_data df))).
    { rewrite hourly_keys. apply in_sort_by, in_unique, in_map_iff. now exists t. }
    apply in_map_iff in Hkey. destruct Hkey as (row & Hrow & Hin).
    assert (Hf : In row (filter (fun row => Z.eqb (g_key row) h) (Excel.hourly_data df))).
    { apply filter_In. split; [exact Hin | now apply Z.eqb_eq]. }
    rewrite Erows in Hf. contradiction.
  - assert (Hf : In row (filter (fun row => Z.eqb (g_key row) h) (Excel.hourly_data df)))
      by (rewrite Erows; now left).
    apply filter_In in Hf. destruct Hf as [Hin Hkey]. apply Z.eqb_eq in Hkey.
    simpl. f_equal.
    destruct (groupby_agg_row start_hour df row Hin) as [_ Htotal].
    rewrite Htotal, Hkey. reflexivity.
Qed.

Lemma peak_hour_lookup_witness :
  Excel.peak_hour_trips sample_dataset 8 = Ok 1%nat.
Proof.
  apply (peak_hour_lookup sample_dataset 8).
  eexists. split; [left; reflexivity | reflexivity].
Defined.

(** ** Day-of-week table *)

Lemma map_insert_sorted {A B : Type} (f : A -> B) (le : B -> B -> bool)
    (x : A) (l : list A) :
  map f (insert_sorted (fun a b => le (f a) (f b)) x l)
  = insert_sorted le (f x) (map f l).
Proof.
  induction l as [| y r IH]; [reflexivity |].
  simpl. destruct (le (f x) (f y)); simpl; [reflexivity | now rewrite IH].
Qed.

Lemma map_sort_by {A B : Type} (f : A -> B) (le : B -> B -> bool) (l : list A) :
  map f (sort_by (fun a b => le (f a) (f b)) l) = sort_by le (map f l).
Proof.
  induction l as [| x r IH]; [reflexivity |].
  simpl. now rewrite map_insert_sorted, IH.
Qed.

Lemma day_name_in_order (t : Z) : In (day_name t) day_order.
Proof.
  unfold day_name.
  destruct ((t / ns_per_day + 3) mod 7)%Z as [| p | p]; simpl; try tauto.
  do 4 (try (destruct p as [p | p |]; simpl; try tauto)).
Qed.

Lemma code_leb_total (a b : option nat) : code_leb a b = true \/ code_leb b a = true.
Proof.
  destruct a as [x |], b as [y |]; simpl; try tauto.
  rewrite !Nat.leb_le. lia.
Qed.

Lemma code_leb_trans (a b c : option nat) :
  code_leb a b = true -> code_leb b c = true -> code_leb a c = true.
Proof.
  destruct a as [x |], b as [y |], c as [z |]; simpl; try tauto; try discriminate.
  rewrite !Nat.leb_le. lia.
Qed.

Lemma in_existsb_eqb (d : string) (col : list string) :
  existsb (String.eqb d) col = true <-> In d col.
Proof.
  rewrite existsb_exists. split.
  - intros (x & Hx & Heq). apply String.eqb_eq in Heq. now subst.
  - intros Hd. exists d. split; [exact Hd | apply String.eqb_refl].
Qed.

(** X11.  The rows of the day-of-week table are the days on which a trip
    started, in the order Monday to Sunday of [day_order], whatever the
    order of the trips in the dataset. *)
Theorem daily_rows_in_week_order :
  forall df,
    map g_key (Excel.daily_data df)
    = filter (fun d => existsb (String.eqb d) (map day_of_week df)) day_order.
Proof.
  intros df. unfold Excel.daily_data.
  set (by_code := fun a b : string =>
                    code_leb (category_code day_order a) (category_code day_order b)).
  rewrite (map_sort_by g_key by_code), (groupby_agg_keys day_of_week df).
  set (keys := sort_by kleb (unique (map day_of_week df))).
  assert (Hkeys : forall d, In d keys <-> In d (map day_of_week df)).
  { intros d. unfold keys. now rewrite in_sort_by, in_unique. }
  assert (Hweek : forall d, In d keys -> In d day_order).
  { intros d Hd. apply Hkeys, in_map_iff in Hd. destruct Hd as (t & <- & _).
    apply day_name_in_order. }
  apply (sorted_perm_eq (fun a b => by_code a b = true)).
  - intros a b Ha Hb Hab Hba.
    apply in_sort_by, Hweek in Ha. apply in_sort_by, Hweek in Hb.
    unfold by_code in Hab, Hba.
    simpl in Ha, Hb.
    repeat (destruct Ha as [<- | Ha]; [
      repeat (destruct Hb as [<- | Hb]; [first [reflexivity | discriminate] |]);
      contradiction |]).
    contradiction.
  - apply NoDup_Permutation.
    + apply (Permutation_NoDup (Permutation_sym (sort_by_perm _ _))).
      apply (Permutation_NoDup (Permutation_sym (sort_by_perm _ _))).
      apply NoDup_unique.
    + apply NoDup_filter. unfold day_order.
      repeat (constructor; [simpl; intuition discriminate |]). constructor.
    + intros d. rewrite in_sort_by, Hkeys, filter_In, in_existsb_eqb. split.
      * intros Hd. split; [| exact Hd]. now apply Hweek, Hkeys.
      * tauto.
  - apply sort_by_sorted.
    + intros a b. apply code_leb_total.
    + intros a b c. apply code_leb_trans.
  - apply sorted_filter. unfold day_order.
    repeat (constructor; [| repeat constructor]). constructor.
Qed.

(** ** Top lists *)

Lemma sorted_weaken {A : Type} (R R' : A -> A -> Prop) (l : list A) :
  (forall a b, R a b -> R' a b) -> StronglySorted R l -> StronglySorted R' l.
Proof.
  intros Himp. induction 1 as [| a r Hr IH Ha]; constructor; [exact IH |].
  rewrite Forall_forall in Ha |- *. intros b Hb. now apply Himp, Ha.
Qed.

Section TopFacts.
Context {K : Type} `{Key K}.

Lemma value_counts_sorted (col : list K) :
  StronglySorted (fun a b : K * nat => (snd b <= snd a)%nat) (value_counts col).
Proof.
  unfold value_counts.
  apply (sorted_weaken (fun a b : K * nat => Nat.leb (snd b) (snd a) = true)).
  - intros a b. apply Nat.leb_le.
  - apply sort_by_sorted.
    + intros a b. rewrite !Nat.leb_le. lia.
    + intros a b c. rewrite !Nat.leb_le. lia.
Qed.

Lemma value_counts_names (col : list K) :
  Permutation (map fst (value_counts col)) (unique col).
Proof.
  unfold value_counts.
  rewrite (Permutation_map fst (sort_by_perm _ _)), map_map. simpl.
  now rewrite map_id.
Qed.

Lemma value_counts_complete (col : list K) (k : K) :
  In k col -> In (k, count k col) (value_counts col).
Proof.
  intros Hk. unfold value_counts. apply in_sort_by, in_map_iff.
  exists k. split; [reflexivity | now apply in_unique].
Qed.

Lemma value_counts_length (col : list K) :
  length (value_counts col) = nunique col.
Proof.
  unfold nunique. rewrite <- (Permutation_length (value_counts_names col)).
  now rewrite length_map.
Qed.

(** What [value_counts().head(n)] lists and what it leaves out. *)
Lemma head_value_counts (n : nat) (col : list K) :
  NoDup (map fst (head n (value_counts col))) /\
  length (head n (value_counts col)) = Nat.min n (nunique col) /\
  StronglySorted (fun a b : K * nat => (snd b <= snd a)%nat)
                 (head n (value_counts col)) /\
  (forall row k, In row (head n (value_counts col)) -> In k col ->
                 ~ In k (map fst (head n (value_counts col))) ->
                 (count k col <= snd row)%nat).
Proof.
  unfold head.
  pose proof (value_counts_sorted col) as Hsorted.
  pose proof (firstn_skipn n (value_counts col)) as Hsplit.
  split; [| split; [| split]].
  - assert (Hnd : NoDup (map fst (value_counts col))).
    { apply (Permutation_NoDup (Permutation_sym (value_counts_names col))).
      apply NoDup_unique. }
    rewrite <- Hsplit, map_app in Hnd. now apply NoDup_app_remove_r in Hnd.
  - now rewrite length_firstn, value_counts_length.
  - rewrite <- Hsplit in Hsorted. clear Hsplit.
    induction (firstn n (value_counts col)) as [| a r IH]; [constructor |].
    simpl in Hsorted. apply StronglySorted_inv in Hsorted.
    destruct Hsorted as [Hr Ha]. constructor; [now apply IH |].
    rewrite Forall_forall in Ha |- *. intros b Hb. apply Ha, in_or_app. now left.
  - intros row k Hrow Hk Hout.
    pose proof (value_counts_complete col k Hk) as Hin.
    rewrite <- Hsplit in Hin, Hsorted. apply in_app_or in Hin.
    destruct Hin as [Hin | Hin].
    + exfalso. apply Hout. apply in_map_iff. now exists (k, count k col).
    + exact (sorted_app_rel _ _ _ Hsorted row (k, count k col) Hrow Hin).
Qed.
End TopFacts.

(** X12.  A top station table lists distinct stations, most trips first, as
    many as its N allows, and every station it leaves out has no more trips
    than any station it lists: for the top 20 of the export script among all
    names of the column, for the top 10 of the analysis script among the
    real stations. *)
Theorem top_tables_list_the_busiest :
  forall df,
    (NoDup (map Excel.station_name (Excel.start_stations df)) /\
     length (Excel.start_stations df)
     = Nat.min 20 (nunique (map start_station_name df)) /\
     StronglySorted (fun a b => (Excel.station_total_trips b
                                 <= Excel.station_total_trips a)%nat)
                    (Excel.start_stations df) /\
     forall row name,
       In row (Excel.start_stations df) ->
       In name (map start_station_name df) ->
       ~ In name (map Excel.station_name (Excel.start_stations df)) ->
       (count name (map start_station_name df) <= Excel.station_total_trips row)%nat) /\
    (NoDup (map fst (Analysis.real_stations_start df)) /\
     length (Analysis.real_stations_start df) = Nat.min 10 (Excel.real_stations df) /\
     StronglySorted (fun a b : string * nat => (snd b <= snd a)%nat)
                    (Analysis.real_stations_start df) /\
     forall row name,
       In row (Analysis.real_stations_start df) ->
       In name (map start_station_name df) -> name <> "Unknown" ->
       ~ In name (map fst (Analysis.real_stations_start df)) ->
       (count name (map start_station_name df) <= snd row)%nat).
Proof.
  intros df. split.
  - unfold Excel.start_stations, Excel.top_stations.
    destruct (head_value_counts 20 (map start_station_name df))
      as (Hnd & Hlen & Hsorted & Htop).
    set (top := head 20 (value_counts (map start_station_name df))) in *.
    rewrite map_map, length_map. cbn [Excel.station_name].
    change (map (fun x : string * nat => fst x) top) with (map fst top).
    split; [exact Hnd | split; [exact Hlen | split]].
    + clear Hnd Hlen Htop.
      induction Hsorted as [| a r Hr IH Ha]; cbn [map]; constructor; [exact IH |].
      rewrite Forall_forall in Ha |- *. intros b Hb.
      apply in_map_iff in Hb. destruct Hb as (x & <- & Hx).
      cbn [Excel.station_total_trips]. now apply Ha.
    + intros row name Hrow Hname Hout.
      apply in_map_iff in Hrow. destruct Hrow as (r & <- & Hr).
      cbn [Excel.station_total_trips]. now apply (Htop r name).
  - unfold Analysis.real_stations_start, Excel.real_stations.
    destruct (head_value_counts 10
                (map start_station_name
                     (filter (fun t => is_real (start_station_name t)) df)))
      as (Hnd & Hlen & Hsorted & Htop).
    split; [exact Hnd | split; [exact Hlen | split; [exact Hsorted |]]].
    intros row name Hrow Hname Hreal Hout.
    apply is_real_iff in Hreal.
    rewrite <- (count_filter is_real name _ Hreal), <- map_filter_comm.
    apply Htop; [exact Hrow | | exact Hout].
    rewrite (map_filter_comm start_station_name is_real).
    apply filter_In. now split.
Qed.

(** ** Station types *)

Section UniqueFilter.
Context {K : Type} `{Key K}.

Lemma remove_key_absent (k : K) (l : list K) : ~ In k l -> remove_key k l = l.
Proof.
  induction l as [| x r IH]; intros Hk; [reflexivity |].
  simpl. rewrite keqb_neq.
  - f_equal. apply IH. intros Hin. apply Hk. now right.
  - intros ->. apply Hk. now left.
Qed.

Lemma remove_key_filter (p : K -> bool) (k : K) (l : list K) :
  remove_key k (filter p l) = filter p (remove_key k l).
Proof.
  induction l as [| x r IH]; [reflexivity |].
  simpl. destruct (p x) eqn:Ep; destruct (keqb k x) eqn:Ek; simpl;
    rewrite ?Ep, ?Ek, IH; reflexivity.
Qed.

Lemma unique_filter (p : K -> bool) (l : list K) :
  unique (filter p l) = filter p (unique l).
Proof.
  induction l as [| x r IH]; [reflexivity |].
  simpl. destruct (p x) eqn:Ep; simpl.
  - now rewrite IH, remove_key_filter.
  - rewrite IH, <- remove_key_filter. symmetry. apply remove_key_absent.
    intros Hin. apply filter_In in Hin. destruct Hin as [_ Hp]. congruence.
Qed.

Lemma unique_NoDup (l : list K) : NoDup l -> unique l = l.
Proof.
  induction 1 as [| x r Hx Hr IH]; [reflexivity |].
  simpl. rewrite IH. f_equal. now apply remove_key_absent.
Qed.
End UniqueFilter.





(** ** Categories *)

Lemma count_present {K : Type} `{Key K} (k : K) (col : list K) :
  In k col -> (1 <= count k col)%nat.
Proof.
  intros Hk. destruct (count k col) eqn:E; [| lia].
  exfalso. unfold count in E. apply length_zero_iff_nil in E.
  assert (Hin : In k (filter (keqb k) col))
    by (apply filter_In; split; [exact Hk | apply keqb_refl]).
  rewrite E in Hin. contradiction.
Qed.

Lemma Qsum_shares {A : Type} (f : A -> nat) (total : Q) (l : list A) :
  (Qsum (map (fun a => Qnat (f a) / total * 100) l)
   == Qnat (list_sum (map f l)) / total * 100)%Q.
Proof.
  induction l as [| a r IH].
  - cbn [map Qsum fold_right list_sum]. change (Qnat 0) with 0%Q.
    unfold Qdiv. ring.
  - cbn [map Qsum fold_right list_sum].
    change (fold_right Qplus 0%Q (map (fun a => Qnat (f a) / total * 100) r))
      with (Qsum (map (fun a => Qnat (f a) / total * 100) r)).
    change (fold_right Nat.add O (map f r)) with (list_sum (map f r)).
    rewrite IH, Qnat_plus. unfold Qdiv. ring.
Qed.

Section Lookup.
Context {K : Type} `{Key K}.

Lemma groupby_size_keys (col : list K) :
  map fst (groupby_size col) = sort_by kleb (unique col).
Proof.
  unfold groupby_size. rewrite map_map. apply map_id.
Qed.

Lemma groupby_size_NoDup (col : list K) : NoDup (map fst (groupby_size col)).
Proof.
  rewrite groupby_size_keys.
  apply (Permutation_NoDup (Permutation_sym (sort_by_perm _ _))), NoDup_unique.
Qed.

Lemma groupby_size_row (col : list K) (row : K * nat) :
  In row (groupby_size col) -> In (fst row) col /\ snd row = count (fst row) col.
Proof.
  unfold groupby_size. intros Hrow. apply in_map_iff in Hrow.
  destruct Hrow as (k & <- & Hk). split; [| reflexivity].
  apply (proj1 (in_sort_by _ _ _)), (proj1 (in_unique _ _)) in Hk. exact Hk.
Qed.

(** Looking a key up in the sizes of the groups: its count when it occurs,
    nothing when it does not. *)
Lemma groupby_size_find (col : list K) (k : K) :
  option_map snd (find (fun row => keqb (fst row) k) (groupby_size col))
  = match count k col with
    | O => None
    | S n => Some (S n)
    end.
Proof.
  destruct (find (fun row => keqb (fst row) k) (groupby_size col)) as [row |] eqn:E.
  - apply find_some in E. destruct E as [Hrow Hkey].
    apply keqb_eq in Hkey. apply groupby_size_row in Hrow.
    destruct Hrow as [Hin Hcount]. rewrite Hkey in Hin, Hcount.
    simpl. rewrite Hcount. pose proof (count_present k col Hin).
    destruct (count k col); [lia | reflexivity].
  - simpl. destruct (count k col) as [| n] eqn:Ecount; [reflexivity |].
    exfalso.
    assert (Hin : In k col).
    { destruct (in_dec (fun a b => Bool.reflect_dec _ _
                          (iff_reflect _ _ (iff_sym (keqb_eq a b)))) k col)
        as [Hin | Hout]; [exact Hin |].
      rewrite (count_absent k col Hout) in Ecount. discriminate. }
    assert (Hrow : In (k, count k col) (groupby_size col)).
    { unfold groupby_size. apply in_map_iff. exists k. split; [reflexivity |].
      apply in_sort_by, in_unique. exact Hin. }
    pose proof (find_none _ _ E _ Hrow) as Hfalse. simpl in Hfalse.
    rewrite keqb_refl in Hfalse. discriminate.
Qed.
End Lookup.

(** X14.  The table by user category has one row per category that occurs:
    no category is listed twice and every category of a trip has its row,
    trips without a category being left out of the grouping.  The rows come
    in ascending order of the category.  The trip count of a row is the
    number of trips of its category, at least one; the counts add up to the
    number of trips that have a category; the percentage of a row is 100
    times its share of these trips, and, when any trip has a category, the
    percentages of the rows add up to 100. *)
Theorem user_analysis_shares :
  forall df,
    NoDup (map Excel.user_category (Excel.user_analysis df)) /\
    (forall c, In c (categories df) <->
               In c (map Excel.user_category (Excel.user_analysis df))) /\
    map Excel.user_category (Excel.user_analysis df)
    = sort_by String.leb (unique (categories df)) /\
    list_sum (map Excel.user_total_trips (Excel.user_analysis df))
    = length (categories df) /\
    (forall row, In row (Excel.user_analysis df) ->
       In (Excel.user_category row) (categories df) /\
       Excel.user_total_trips row = count (Excel.user_category row) (categories df) /\
       (1 <= Excel.user_total_trips row)%nat /\
       (Excel.user_percentage row
        == Qnat (Excel.user_total_trips row) / Qnat (length (categories df)) * 100)%Q) /\
    (categories df <> [] ->
     (Qsum (map Excel.user_percentage (Excel.user_analysis df)) == 100)%Q).
Proof.
  intros df.
  assert (Hkeys : map Excel.user_category (Excel.user_analysis df)
                  = map fst (groupby_size (categories df))).
  { unfold Excel.user_analysis. now rewrite map_map. }
  unfold Excel.user_analysis in *.
  pose proof (groupby_size_sum (categories df)) as Hsum.
  pose proof (groupby_size_NoDup (categories df)) as Hdistinct.
  pose proof (groupby_size_keys (categories df)) as Hsorted.
  set (groups := groupby_size (categories df)) in *.
  split; [| split; [| split; [| split; [| split]]]].
  - now rewrite Hkeys.
  - intros c. rewrite Hkeys, Hsorted. rewrite in_sort_by. symmetry. apply in_unique.
  - now rewrite Hkeys.
  - rewrite map_map. cbn [Excel.user_total_trips]. exact Hsum.
  - intros row Hrow. apply in_map_iff in Hrow. destruct Hrow as (g & <- & Hg).
    cbn [Excel.user_category Excel.user_total_trips Excel.user_percentage].
    unfold groups in Hg. apply groupby_size_row in Hg. destruct Hg as [Hin Hcount].
    split; [exact Hin | split; [exact Hcount | split]].
    + rewrite Hcount. now apply count_present.
    + now rewrite Hsum.
  - intros Hne. rewrite map_map. cbn [Excel.user_percentage].
    rewrite (Qsum_shares snd), Hsum.
    assert (Hpos : ~ (Qnat (length (categories df)) == 0)%Q).
    { intros Hz. apply Qeq_bool_iff, Qnat_is_zero in Hz.
      destruct (categories df); [contradiction | discriminate]. }
    field. exact Hpos.
Qed.

Lemma user_analysis_shares_witness :
  map Excel.user_category (Excel.user_analysis sample_dataset) = ["casual"; "member"] /\
  (Qsum (map Excel.user_percentage (Excel.user_analysis sample_dataset)) == 100)%Q.
Proof.
  destruct (user_analysis_shares sample_dataset) as (_ & _ & Hrows & _ & _ & Hsum).
  split; [rewrite Hrows; reflexivity | apply Hsum; discriminate].
Defined.

(** ** Heatmap *)

(** X15.  The pivot of the heatmap never raises: no (hour, day) pair occurs
    twice in the grouped data.  The table has one row per hour in which a
    trip started, the hours of the hourly table in the same order, and in
    each row one cell per day from Monday to Sunday; a cell holds the number
    of trips that started in that hour on that day and is empty, not zero,
    when there is none. *)
Theorem heatmap_cells :
  forall df,
    exists table,
      Excel.heatmap_pivot df = Ok table /\
      map fst table = map g_key (Excel.hourly_data df) /\
      forall h cells, In (h, cells) table ->
        cells
        = map (fun d =>
                 match length (filter (fun t => Z.eqb h (start_hour t)
                                                && String.eqb d (day_of_week t)) df) with
                 | O => None
                 | S n => Some (S n)
                 end)
              day_order.
Proof.
  intros df. unfold Excel.heatmap_pivot, pivot_reindex, Excel.heatmap_data.
  set (col := map (fun t => (start_hour t, day_of_week t)) df).
  assert (Hdistinct : nunique (map fst (groupby_size col)) = length (groupby_size col)).
  { unfold nunique. rewrite (unique_NoDup _ (groupby_size_NoDup col)). apply length_map. }
  rewrite Hdistinct, Nat.eqb_refl. eexists. split; [reflexivity |].
  split.
  - rewrite map_map. cbn [fst]. rewrite map_id, hourly_keys.
    apply (sorted_perm_eq (fun a b => (a <=? b)%Z = true)).
    + intros a b _ _ Hab Hba. apply Z.leb_le in Hab, Hba. lia.
    + apply NoDup_Permutation.
      * apply (Permutation_NoDup (Permutation_sym (sort_by_perm _ _))), NoDup_unique.
      * apply (Permutation_NoDup (Permutation_sym (sort_by_perm _ _))), NoDup_unique.
      * intros h. rewrite !in_sort_by, !in_unique, !in_map_iff. split.
        -- intros (row & <- & Hrow). apply groupby_size_row in Hrow.
           destruct Hrow as [Hin _]. unfold col in Hin. apply in_map_iff in Hin.
           destruct Hin as (t & Ht & Hin). exists t. split; [| exact Hin].
           now rewrite <- Ht.
        -- intros (t & <- & Hin).
           exists ((start_hour t, day_of_week t), count (start_hour t, day_of_week t) col).
           split; [reflexivity |].
           unfold groupby_size. apply in_map_iff. eexists. split; [reflexivity |].
           apply in_sort_by, in_unique. unfold col. apply in_map_iff. now exists t.
    + apply sort_by_sorted; [apply Zleb_total | apply Zleb_trans].
    + apply sort_by_sorted; [apply Zleb_total | apply Zleb_trans].
  - intros h cells Hrow. apply in_map_iff in Hrow.
    destruct Hrow as (h' & Heq & _).
    pose proof (f_equal fst Heq) as Hh. pose proof (f_equal snd Heq) as Hcells.
    cbn [fst snd] in Hh, Hcells. subst h cells.
    apply map_ext. intros d. rewrite (groupby_size_find col (h', d)).
    unfold col. now rewrite count_map_filter.
Qed.

(** ** Discovery of the raw files *)

Lemma string_leb_trans (s1 s2 s3 : string) :
  String.leb s1 s2 = true -> String.leb s2 s3 = true -> String.leb s1 s3 = true.
Proof.
  unfold String.leb. revert s2 s3.
  induction s1 as [| c1 s1 IH]; intros [| c2 s2] [| c3 s3]; simpl;
    try reflexivity; try discriminate.
  unfold Ascii.compare.
  destruct (N.compare_spec (Ascii.N_of_ascii c1) (Ascii.N_of_ascii c2));
    destruct (N.compare_spec (Ascii.N_of_ascii c2) (Ascii.N_of_ascii c3));
    destruct (N.compare_spec (Ascii.N_of_ascii c1) (Ascii.N_of_ascii c3));
    try discriminate; try reflexivity; try lia.
  apply IH.
Qed.

Lemma string_length_append (a b : string) :
  String.length (a ++ b) = (String.length a + String.length b)%nat.
Proof.
  induction a as [| c a IH]; simpl; [reflexivity | now rewrite IH].
Qed.

Lemma substring_all (s : string) : substring 0 (String.length s) s = s.
Proof.
  induction s as [| c s IH]; simpl; [reflexivity | now rewrite IH].
Qed.

Lemma substring_append_r (a b : string) :
  substring (String.length a) (String.length b) (a ++ b) = b.
Proof.
  induction a as [| c a IH]; simpl; [apply substring_all | exact IH].
Qed.

Lemma substring_split (s : string) (k : nat) :
  (k <= String.length s)%nat ->
  s = (substring 0 k s ++ substring k (String.length s - k) s)%string.
Proof.
  revert k. induction s as [| c s IH]; intros k Hk.
  - simpl in Hk. assert (k = O) by lia. subst k. reflexivity.
  - destruct k as [| k].
    + simpl. now rewrite substring_all.
    + simpl in Hk |- *. f_equal. apply IH. lia.
Qed.

(** [endswith] holds of the strings that end in the suffix. *)
Lemma endswith_iff (s suffix : string) :
  endswith s suffix = true <-> exists stem, s = (stem ++ suffix)%string.
Proof.
  unfold endswith. cbv zeta. rewrite andb_true_iff, Nat.leb_le, String.eqb_eq. split.
  - intros [Hlen Hsuf].
    exists (substring 0 (String.length s - String.length suffix) s).
    rewrite <- Hsuf at 2.
    replace (String.length suffix)
      with (String.length s - (String.length s - String.length suffix))%nat at 3 by lia.
    apply substring_split. lia.
  - intros (stem & ->). rewrite string_length_append. split; [lia |].
    replace (String.length stem + String.length suffix - String.length suffix)%nat
      with (String.length stem) by lia.
    apply substring_append_r.
Qed.

Lemma Permutation_filter_same {A : Type} (p : A -> bool) (l l' : list A) :
  Permutation l l' -> Permutation (filter p l) (filter p l').
Proof.
  induction 1 as [| x l l' Hperm IH | x y l | l l' l'' H1 IH1 H2 IH2]; simpl.
  - constructor.
  - destruct (p x); [now constructor | exact IH].
  - destruct (p x), (p y); try reflexivity. apply perm_swap.
  - now transitivity (filter p l').
Qed.

(** X16.  The raw files are processed in ascending order of their paths,
    whatever the order in which the directory lists them; the paths are
    those of the directory entries whose names end in [.csv], and of no
    others. *)
Theorem raw_file_paths_order :
  (forall listing,
     StronglySorted (fun a b => String.leb a b = true) (Analysis.raw_file_paths listing)) /\
  (forall listing path,
     In path (Analysis.raw_file_paths listing) <->
     exists stem, In (stem ++ ".csv")%string listing /\
                  path = ("data/raw/" ++ stem ++ ".csv")%string) /\
  (forall listing listing',
     Permutation listing listing' ->
     Analysis.raw_file_paths listing = Analysis.raw_file_paths listing').
Proof.
  assert (Hsorted : forall listing,
            StronglySorted (fun a b => String.leb a b = true)
                           (Analysis.raw_file_paths listing)).
  { intros listing. apply sort_by_sorted; [apply String.leb_total | apply string_leb_trans]. }
  split; [exact Hsorted | split].
  - intros listing path. unfold Analysis.raw_file_paths.
    rewrite in_sort_by, in_map_iff. split.
    + intros (file & <- & Hfile). apply filter_In in Hfile.
      destruct Hfile as [Hin Hcsv]. apply endswith_iff in Hcsv.
      destruct Hcsv as (stem & ->). now exists stem.
    + intros (stem & Hin & ->). exists (stem ++ ".csv")%string.
      split; [reflexivity |]. apply filter_In. split; [exact Hin |].
      apply endswith_iff. now exists stem.
  - intros listing listing' Hperm.
    apply (sorted_perm_eq (fun a b => String.leb a b = true)).
    + intros a b _ _. apply String.leb_antisym.
    + unfold Analysis.raw_file_paths.
      rewrite !sort_by_perm. now apply Permutation_map, Permutation_filter_same.
    + apply Hsorted.
    + apply Hsorted.
Qed.

Lemma raw_file_paths_order_witness :
  Analysis.raw_file_paths ["202402-divvy.csv"; "notes.txt"; "202401-divvy.csv"]
  = Analysis.raw_file_paths ["202401-divvy.csv"; "202402-divvy.csv"; "notes.txt"].
Proof.
  apply (proj2 (proj2 raw_file_paths_order)).
  apply Permutation_trans with ["notes.txt"; "202402-divvy.csv"; "202401-divvy.csv"];
    [apply perm_swap |].
  apply Permutation_trans with ["notes.txt"; "202401-divvy.csv"; "202402-divvy.csv"];
    [apply perm_skip, perm_swap |].
  apply Permutation_trans with ["202401-divvy.csv"; "notes.txt"; "202402-divvy.csv"];
    [apply perm_swap | apply perm_skip, perm_swap].
Defined.

(** ** Means of the grouped tables *)

Section GroupMeans.
Context {K : Type} `{Key K}.

Lemma groupby_agg_fields (key : trip -> K) (df : list trip) (row : group_row K) :
  In row (groupby_agg key df) ->
  let g := group_of key (g_key row) df in
  g <> [] /\
  g_total_trips row = length g /\
  g_membership_indicator row
  = series_mean (map (fun t => inject_Z (membership_indicator t)) g) /\
  g_trip_duration_minutes row = series_mean (map trip_duration_minutes g).
Proof.
  intros Hrow. pose proof (groupby_agg_row key df row Hrow) as [Hkey _].
  unfold groupby_agg in Hrow. apply in_map_iff in Hrow.
  destruct Hrow as (k & <- & _). cbn [g_key g_total_trips g_membership_indicator
                                      g_trip_duration_minutes] in *.
  split; [| now repeat split].
  apply in_map_iff in Hkey. destruct Hkey as (t & Ht & Hin).
  intros Hnil.
  assert (Hg : In t (group_of key k df)).
  { apply filter_In. split; [exact Hin |]. apply keqb_eq. now symmetry. }
  rewrite Hnil in Hg. contradiction.
Qed.

(** The means of a row of a grouped table over the canonical dataset. *)
Lemma groupby_agg_means (key : trip -> K) (df : list trip) (row : group_row K) :
  canonical df -> In row (groupby_agg key df) ->
  exists m d,
    g_membership_indicator row = Fin m /\
    g_trip_duration_minutes row = Fin d /\
    (m == Qnat (Excel.member_trips (group_of key (g_key row) df))
          / Qnat (g_total_trips row))%Q /\
    (0 <= m <= 1)%Q /\ (0 < d <= 1440)%Q.
Proof.
  intros Hcanon Hrow.
  destruct (groupby_agg_fields key df row Hrow) as (Hne & Htotal & Hm & Hd).
  set (g := group_of key (g_key row) df) in *.
  assert (Hsub : forall t, In t g -> In t df).
  { intros t Ht. unfold g, group_of in Ht. now apply filter_In in Ht. }
  assert (Hn : (0 < length g)%nat) by (destruct g; [contradiction | simpl; lia]).
  pose proof (Qnat_pos _ Hn) as Hnpos.
  rewrite Hm, Hd, !series_mean_nonempty, !length_map, Htotal
    by (destruct g; [contradiction | discriminate]).
  do 2 eexists. split; [reflexivity | split; [reflexivity |]].
  assert (Hind : (Qsum (map (fun t => inject_Z (membership_indicator t)) g)
                  == Qnat (Excel.member_trips g))%Q).
  { apply indicator_sum. intros t Ht.
    apply (canonical_indicator df Hcanon), Hsub, Ht. }
  assert (Hdur : Forall (fun d => 0 < d /\ d <= 1440)%Q (map trip_duration_minutes g)).
  { apply Forall_forall. intros d Hd'. apply in_map_iff in Hd'.
    destruct Hd' as (t & <- & Ht).
    destruct (canonical_rows df Hcanon t (Hsub t Ht)) as (_ & _ & Hrange).
    exact Hrange. }
  destruct (Qsum_range _ Hdur) as (_ & Hmax & Hpos). rewrite length_map in Hmax.
  split; [now rewrite Hind | split; split].
  - rewrite Hind. apply Qle_shift_div_l; [exact Hnpos |].
    rewrite Qmult_0_l. apply Qnat_nonneg.
  - rewrite Hind. apply Qle_shift_div_r; [exact Hnpos |].
    rewrite Qmult_1_l. apply Qnat_le. apply filter_length_le.
  - apply Qlt_shift_div_l; [exact Hnpos |]. rewrite Qmult_0_l.
    apply Hpos. destruct g; [contradiction | discriminate].
  - apply Qle_shift_div_r; [exact Hnpos | exact Hmax].
Qed.
End GroupMeans.

(** X17.  Over the canonical dataset no row of the hourly or of the
    day-of-week table holds a [nan]: the mean membership indicator of a row
    is the share of member trips among the trips of its group, between 0 and
    1, and its mean duration is above 0 and at most 1440 minutes. *)
Theorem grouped_means_are_finite :
  forall df, canonical df ->
    (forall row, In row (Excel.hourly_data df) ->
       exists m d,
         g_membership_indicator row = Fin m /\
         g_trip_duration_minutes row = Fin d /\
         (m == Qnat (Excel.member_trips (group_of start_hour (g_key row) df))
               / Qnat (g_total_trips row))%Q /\
         (0 <= m <= 1)%Q /\ (0 < d <= 1440)%Q) /\
    (forall row, In row (Excel.daily_data df) ->
       exists m d,
         g_membership_indicator row = Fin m /\
         g_trip_duration_minutes row = Fin d /\
         (m == Qnat (Excel.member_trips (group_of day_of_week (g_key row) df))
               / Qnat (g_total_trips row))%Q /\
         (0 <= m <= 1)%Q /\ (0 < d <= 1440)%Q).
Proof.
  intros df Hcanon. split; intros row Hrow.
  - now apply groupby_agg_means.
  - unfold Excel.daily_data in Hrow.
    apply (proj1 (in_sort_by _ _ _)) in Hrow. now apply groupby_agg_means.
Qed.

Lemma grouped_means_are_finite_witness :
  exists row m d,
    In row (Excel.hourly_data sample_dataset) /\
    g_membership_indicator row = Fin m /\
    g_trip_duration_minutes row = Fin d /\
    (0 <= m <= 1)%Q /\ (0 < d <= 1440)%Q.
Proof.
  assert (Hcanon : canonical sample_dataset) by (exists [Table sample_rows]; reflexivity).
  pose proof (proj1 (grouped_means_are_finite sample_dataset Hcanon)) as Hrows.
  assert (Hin : In (hd {| g_key := 0%Z; g_total_trips := O;
                          g_membership_indicator := NaN;
                          g_trip_duration_minutes := NaN |}
                       (Excel.hourly_data sample_dataset))
                   (Excel.hourly_data sample_dataset)) by (left; reflexivity).
  destruct (Hrows _ Hin) as (m & d & Hm & Hd & _ & Hmr & Hdr).
  eexists. exists m, d. split; [exact Hin |].
  split; [exact Hm | split; [exact Hd | split; [exact Hmr | exact Hdr]]].
Defined.

(** ** Weekday and weekend averages *)

Lemma sum_counts_filter {K : Type} `{Key K} (q : K -> bool) (col : list K) :
  list_sum (map (fun k => count k col) (filter q (unique col)))
  = length (filter q col).
Proof.
  rewrite <- unique_filter, <- (sum_counts_unique (filter q col)).
  f_equal. apply map_ext_in. intros k Hk.
  apply (proj1 (in_unique _ _)), filter_In in Hk. destruct Hk as [_ Hq].
  symmetry. now apply count_filter.
Qed.

Lemma daily_rows_on (labels : list string) (df : list trip) :
  Permutation
    (map g_total_trips (filter (fun row => Excel.isin labels (g_key row))
                               (Excel.daily_data df)))
    (map (fun d => count d (map day_of_week df))
         (filter (Excel.isin labels) (unique (map day_of_week df)))).
Proof.
  unfold Excel.daily_data.
  rewrite (Permutation_filter_same _ _ _ (sort_by_perm _ _)).
  unfold groupby_agg.
  rewrite <- (map_filter_comm _ (fun row => Excel.isin labels (g_key row))).
  cbn [g_key]. rewrite map_map. cbn [g_total_trips].
  rewrite (Permutation_filter_same (Excel.isin labels) _ _ (sort_by_perm _ _)).
  apply Permutation_refl'. apply map_ext. intros d.
  unfold group_of. symmetry. apply count_map_filter.
Qed.

(** X18.  The weekday and weekend averages of the export script are the
    number of trips that started on the days of the list divided by the
    number of those days on which any trip started, at most seven: an
    average per observed day of the week, not per calendar day. *)
Theorem average_trips_on_value :
  forall df labels,
    let observed := nunique (filter (Excel.isin labels) (map day_of_week df)) in
    (observed <= 7)%nat /\
    ((0 < observed)%nat ->
     feq (Excel.average_trips_on labels df)
         (Fin (Qnat (length (filter (fun t => Excel.isin labels (day_of_week t)) df))
               / Qnat observed))).
Proof.
  intros df labels observed.
  assert (Hobs : observed
                 = length (filter (Excel.isin labels) (unique (map day_of_week df)))).
  { unfold observed, nunique. now rewrite unique_filter. }
  split.
  - unfold observed, nunique.
    change 7%nat with (length day_order).
    apply NoDup_incl_length; [apply NoDup_unique |].
    intros d Hd. apply (proj1 (in_unique _ _)), filter_In in Hd.
    destruct Hd as [Hd _]. apply in_map_iff in Hd. destruct Hd as (t & <- & _).
    apply day_name_in_order.
  - intros Hpos. unfold Excel.average_trips_on.
    pose proof (daily_rows_on labels df) as Hperm.
    set (rows := filter (fun row => Excel.isin labels (g_key row)) (Excel.daily_data df)) in *.
    assert (Hlen : length rows = observed).
    { rewrite Hobs, <- (length_map g_total_trips rows),
        (Permutation_length Hperm). apply length_map. }
    rewrite series_mean_nonempty.
    + cbn [feq]. rewrite length_map, Hlen, (Qsum_Qnat g_total_trips).
      rewrite (list_sum_perm _ _ Hperm), sum_counts_filter.
      rewrite <- (map_filter_comm day_of_week (Excel.isin labels)), length_map.
      reflexivity.
    + intros Hnil. apply (f_equal (@length Q)) in Hnil.
      rewrite length_map, Hlen in Hnil. simpl in Hnil. lia.
Qed.

Lemma average_trips_on_value_witness :
  feq (Excel.weekend_average_trips sample_dataset) (Fin 1).
Proof.
  destruct (average_trips_on_value sample_dataset ["Saturday"; "Sunday"]) as [_ Havg].
  unfold Excel.weekend_average_trips.
  destruct (Excel.average_trips_on ["Saturday"; "Sunday"] sample_dataset) as [q |].
  - cbn [feq] in Havg |- *. rewrite Havg; [reflexivity | vm_compute; lia].
  - apply Havg. vm_compute. lia.
Defined.

(** ** Errors that reach the caller of the export script *)

Lemma peak_hour_absent (df : list trip) (h : Z) :
  (forall t, In t df -> start_hour t <> h) ->
  Excel.peak_hour_trips df h = Raise IndexError.
Proof.
  intros Hnone. unfold Excel.peak_hour_trips, Excel.hourly_data.
  rewrite filter_none; [reflexivity |].
  intros row Hrow. apply groupby_agg_row in Hrow. destruct Hrow as [Hkey _].
  apply in_map_iff in Hkey. destruct Hkey as (t & Ht & Hin).
  apply Z.eqb_neq. rewrite <- Ht. now apply Hnone.
Qed.

Lemma peak_hour_present (df : list trip) (h : Z) (n : nat) :
  Excel.peak_hour_trips df h = Ok n -> exists t, In t df /\ start_hour t = h.
Proof.
  unfold Excel.peak_hour_trips. intros Hok.
  destruct (filter (fun row => Z.eqb (g_key row) h) (Excel.hourly_data df))
    as [| row rest] eqn:Erows; [discriminate |].
  assert (Hf : In row (filter (fun row => Z.eqb (g_key row) h) (Excel.hourly_data df)))
    by (rewrite Erows; now left).
  apply filter_In in Hf. destruct Hf as [Hin Hkey]. apply Z.eqb_eq in Hkey.
  destruct (groupby_agg_row start_hour df row Hin) as [Hobserved _].
  apply in_map_iff in Hobserved. destruct Hobserved as (t & Ht & Htin).
  exists t. split; [exact Htin | congruence].
Qed.

Lemma peak_hour_raises (df : list trip) (h : Z) (e : exn) :
  Excel.peak_hour_trips df h = Raise e -> e = IndexError.
Proof.
  unfold Excel.peak_hour_trips.
  destruct (filter (fun row => Z.eqb (g_key row) h) (Excel.hourly_data df));
    cbn; intros Hraise; [congruence | discriminate].
Qed.

Lemma station_types_data_ok (df : list trip) :
  df <> [] -> exists rows, Excel.station_types_data df = Ok rows.
Proof.
  intros Hdf. unfold Excel.station_types_data. rewrite !truediv_Qnat.
  assert (Htotal : (0 < Excel.total_start_stations df)%nat).
  { unfold Excel.total_start_stations, nunique.
    destruct df; [contradiction | simpl; lia]. }
  destruct (Excel.total_start_stations df); [lia |].
  cbn [bind]. now eexists.
Qed.

Lemma heatmap_pivot_ok (df : list trip) :
  exists table, Excel.heatmap_pivot df = Ok table.
Proof.
  unfold Excel.heatmap_pivot, pivot_reindex, Excel.heatmap_data.
  set (col := map (fun t => (start_hour t, day_of_week t)) df).
  assert (Hdistinct : nunique (map fst (groupby_size col)) = length (groupby_size col)).
  { unfold nunique. rewrite (unique_NoDup _ (groupby_size_NoDup col)). apply length_map. }
  rewrite Hdistinct, Nat.eqb_refl. now eexists.
Qed.

(** An exception in the KPI section comes before the first sheet: what the
    caller gets is the [IndexError] of closing the empty workbook. *)
Lemma export_script_before_first_sheet (df : list trip) (e : exn) :
  Excel.kpi_data df = Raise e -> Excel.export_script df = Raise IndexError.
Proof.
  intros Hk. unfold Excel.export_script, Excel.workbook. now rewrite Hk.
Qed.

(** Once the KPI section is through, the script ends as the binning of the
    durations and the summary statistics end. *)
Lemma export_script_after_kpis (df : list trip) (k : Excel.kpis) :
  Excel.kpi_data df = Ok k ->
  Excel.export_script df = (_ <- Excel.duration_bins df ;; Excel.summary_stats df).
Proof.
  intros Hk. destruct (kpi_data_ok df k Hk) as (Hdf & _).
  destruct (station_types_data_ok df Hdf) as (rows & Hrows).
  destruct (heatmap_pivot_ok df) as (table & Htable).
  unfold Excel.export_script, Excel.workbook. rewrite Hk, Hrows, Htable.
  destruct (Excel.duration_bins df) as [[] | e]; [| reflexivity].
  cbn [bind]. now destruct (Excel.summary_stats df).
Qed.

Lemma summary_stats_ok (df : list trip) (s : Excel.summary) :
  Excel.summary_stats df = Ok s ->
  (0 < Excel.real_end_stations df)%nat /\
  Excel.peak_hour_trips df 8 = Ok (Excel.s_peak_8 s) /\
  Excel.peak_hour_trips df 18 = Ok (Excel.s_peak_18 s) /\
  Excel.s_weekday_average s = Excel.weekday_average_trips df /\
  Excel.s_weekend_average s = Excel.weekend_average_trips df.
Proof.
  unfold Excel.summary_stats. rewrite truediv_Qnat. intros Hs.
  destruct (Excel.real_end_stations df); [discriminate |]. cbn [bind] in Hs.
  destruct (Excel.peak_hour_trips df 8) as [p8 | e]; [| discriminate].
  destruct (Excel.peak_hour_trips df 18) as [p18 | e]; [| discriminate].
  cbn [bind] in Hs. injection Hs as <-. cbn. repeat split. lia.
Qed.

(** C6 (as the code has it).  In the export script a dataset without a real
    start station, or one whose starts span less than a whole day, makes a
    division of the KPI section raise [ZeroDivisionError]; no sheet has been
    written by then, so the caller receives the [IndexError] of closing the
    empty workbook.  After the KPI section, a dataset without a real end
    station stops the summary with [ZeroDivisionError], and the look-up of
    the row of hour 8 or 18 raises [IndexError] when no trip started in that
    hour; both reach the caller.  The export script never completes unless
    these denominators are non-zero and these rows exist.  In the analysis
    script a span of zero raises [ZeroDivisionError].  A mean over no rows
    raises nothing: without a real start station the analysis script's
    station efficiency is [nan] and the KPI section completes with it, and
    the export script's average over the days of a list (the weekdays, the
    weekend) is [nan] when no trip started on any of them, also in the
    summary of a run that completes. *)
Theorem zero_denominators_and_absent_groups :
  forall df,
    (Excel.real_stations df = O ->
     Excel.station_efficiency df = Raise ZeroDivisionError /\
     Excel.kpi_data df = Raise ZeroDivisionError /\
     Excel.export_script df = Raise IndexError) /\
    ((started_span df < ns_per_day)%Z ->
     Excel.kpi_data df = Raise ZeroDivisionError /\
     Excel.export_script df = Raise IndexError) /\
    (forall h, (forall t, In t df -> start_hour t <> h) ->
               Excel.peak_hour_trips df h = Raise IndexError) /\
    (forall k, Excel.kpi_data df = Ok k -> Excel.duration_bins df = Ok tt ->
       (Excel.real_end_stations df = O ->
        Excel.export_script df = Raise ZeroDivisionError) /\
       ((0 < Excel.real_end_stations df)%nat ->
        (forall t, In t df -> start_hour t <> 8%Z) \/
        (forall t, In t df -> start_hour t <> 18%Z) ->
        Excel.export_script df = Raise IndexError)) /\
    (forall s, Excel.export_script df = Ok s ->
       (0 < Excel.real_stations df)%nat /\ (ns_per_day <= started_span df)%Z /\
       (0 < Excel.real_end_stations df)%nat /\
       (exists t, In t df /\ start_hour t = 8%Z) /\
       (exists t, In t df /\ start_hour t = 18%Z) /\
       Excel.s_weekday_average s = Excel.weekday_average_trips df /\
       Excel.s_weekend_average s = Excel.weekend_average_trips df) /\
    (df <> [] -> started_span df = 0%Z ->
     Analysis.key_performance_indicators df = Raise ZeroDivisionError) /\
    (Excel.real_stations df = O -> (ns_per_microsecond <= started_span df)%Z ->
     exists k, Analysis.key_performance_indicators df = Ok k /\
               Analysis.k_average_station_efficiency k = NaN) /\
    (forall labels, (forall t, In t df -> ~ In (day_of_week t) labels) ->
                    Excel.average_trips_on labels df = NaN).
Proof.
  intros df.
  assert (Hkpi : (Excel.real_stations df = O \/ (started_span df < ns_per_day)%Z) ->
                 Excel.kpi_data df = Raise ZeroDivisionError).
  { intros Hzero. destruct (Excel.kpi_data df) as [k | e] eqn:Ek.
    - apply kpi_data_ok in Ek. lia.
    - now rewrite (kpi_data_raises df e Ek). }
  split; [| split; [| split; [| split; [| split; [| split; [| split]]]]]].
  - intros Hreal. split; [| split].
    + unfold Excel.station_efficiency. now rewrite truediv_Qnat, Hreal.
    + apply Hkpi. now left.
    + apply (export_script_before_first_sheet df ZeroDivisionError), Hkpi. now left.
  - intros Hspan. split.
    + apply Hkpi. now right.
    + apply (export_script_before_first_sheet df ZeroDivisionError), Hkpi. now right.
  - intros h. apply peak_hour_absent.
  - intros k Hk Hbins. rewrite (export_script_after_kpis df k Hk), Hbins. cbn [bind].
    unfold Excel.summary_stats. rewrite truediv_Qnat. split.
    + intros Hend. now rewrite Hend.
    + intros Hend Hpeak. destruct (Excel.real_end_stations df); [lia |]. cbn [bind].
      destruct Hpeak as [H8 | H18].
      * now rewrite (peak_hour_absent df 8 H8).
      * rewrite (peak_hour_absent df 18 H18).
        destruct (Excel.peak_hour_trips df 8) as [p8 | e] eqn:E8; [reflexivity |].
        cbn [bind]. now rewrite (peak_hour_raises df 8 e E8).
  - intros s Hs.
    destruct (Excel.kpi_data df) as [k | e] eqn:Ek.
    2: { rewrite (export_script_before_first_sheet df e Ek) in Hs. discriminate. }
    rewrite (export_script_after_kpis df k Ek) in Hs.
    destruct (Excel.duration_bins df) as [[] | e]; [| discriminate]. cbn [bind] in Hs.
    destruct (kpi_data_ok df k Ek) as (_ & Hspan & Hreal).
    destruct (summary_stats_ok df s Hs) as (Hend & H8 & H18 & Hweek & Hweekend).
    split; [exact Hreal | split; [exact Hspan | split; [exact Hend |]]].
    split; [exact (peak_hour_present df 8 _ H8) |].
    split; [exact (peak_hour_present df 18 _ H18) |].
    split; assumption.
  - intros Hdf. apply (analysis_kpis_value df Hdf).
  - intros Hreal Hspan.
    assert (Hdf : df <> []).
    { intros ->. unfold ns_per_microsecond in Hspan. vm_compute in Hspan.
      now apply Hspan. }
    assert (Hne : started_span df <> 0%Z)
      by (unfold ns_per_microsecond in Hspan; lia).
    destruct (proj2 (analysis_kpis_value df Hdf) Hne) as (k & Hk & Havg).
    exists k. split; [exact Hk |]. rewrite Havg. now apply no_real_station_nan.
  - intros labels Hnone. unfold Excel.average_trips_on.
    rewrite filter_none; [reflexivity |].
    intros row Hrow. unfold Excel.daily_data in Hrow.
    apply (proj1 (in_sort_by _ _ _)) in Hrow.
    apply groupby_agg_row in Hrow. destruct Hrow as [Hkey _].
    apply in_map_iff in Hkey. destruct Hkey as (t & Ht & Hin).
    apply isin_absent. rewrite <- Ht. now apply Hnone.
Qed.

Lemma zero_denominators_and_absent_groups_witness :
  Excel.kpi_data dockless_dataset = Raise ZeroDivisionError /\
  Excel.export_script dockless_dataset = Raise IndexError /\
  Excel.export_script single_trip_dataset = Raise IndexError /\
  Excel.peak_hour_trips dockless_dataset 18 = Raise IndexError /\
  Excel.export_script whole_days_dataset = Raise IndexError /\
  Analysis.key_performance_indicators single_trip_dataset = Raise ZeroDivisionError /\
  (exists k, Analysis.key_performance_indicators dockless_dataset = Ok k /\
             Analysis.k_average_station_efficiency k = NaN) /\
  Excel.weekend_average_trips dockless_dataset = NaN.
Proof.
  destruct (zero_denominators_and_absent_groups dockless_dataset)
    as (Hreal & _ & Hhour & _ & _ & _ & Hnan & Hweekend).
  destruct (zero_denominators_and_absent_groups single_trip_dataset)
    as (_ & Hspan & _ & _ & _ & Hzero & _).
  destruct (zero_denominators_and_absent_groups whole_days_dataset)
    as (_ & _ & _ & Hsummary & _).
  destruct (Hreal eq_refl) as (_ & Hkpi & Hscript).
  split; [exact Hkpi | split; [exact Hscript |]].
  split; [apply Hspan; reflexivity |].
  split; [| split; [| split; [| split]]].
  - apply Hhour. intros t Ht. vm_compute in Ht.
    destruct Ht as [<- | [<- | []]]; discriminate.
  - eapply Hsummary; [reflexivity | reflexivity | vm_compute; lia |].
    right. intros t Ht. vm_compute in Ht.
    destruct Ht as [<- | [<- | []]]; discriminate.
  - apply Hzero; [discriminate | reflexivity].
  - apply Hnan; [reflexivity | vm_compute; discriminate].
  - apply Hweekend. intros t Ht Hday. vm_compute in Ht.
    destruct Ht as [<- | [<- | []]]; vm_compute in Hday;
      destruct Hday as [Hday | [Hday | []]]; discriminate.
Defined.
